(** * NES-6502: the instruction core of [src/cpu/cpu.cc]

    A shallow embedding of the CPU core (register file, addressing-mode
    resolvers and operation bodies of [Cpu]) together with the properties
    of its arithmetic, compare, shift, stack, reset and addressing code.

    Layout of the development:
    - fixed-width integers ([u8], [u16]);
    - [Status], the status word [p] (its class is declared in a header
      that is not part of the sources; modelled from the specification);
    - [Bus] and [Mem], the memory facade (same remark);
    - [Cpu], the register file, and the functions of [cpu.cc];
    - the theorems. *)

From Stdlib Require Import ZArith List Bool Lia.
Import ListNotations.
Local Open Scope Z_scope.

(** ** Fixed-width integers

    Registers are [uint8_t], addresses and [op] are [uint16_t].  Values are
    kept in [Z]; every conversion to a narrower C++ type is written out. *)

Definition u8 (v : Z) : Z := v mod 256.
Definition u16 (v : Z) : Z := v mod 65536.

(** [(int8_t) v]: the byte read as a two's complement number. *)
Definition i8 (v : Z) : Z := if u8 v <? 128 then u8 v else u8 v - 256.

Lemma u8_range (v : Z) : 0 <= u8 v < 256.
Proof. unfold u8. apply Z.mod_pos_bound. lia. Qed.

Lemma u16_range (v : Z) : 0 <= u16 v < 65536.
Proof. unfold u16. apply Z.mod_pos_bound. lia. Qed.

Lemma u8_small (v : Z) : 0 <= v < 256 -> u8 v = v.
Proof. intros H. unfold u8. apply Z.mod_small. exact H. Qed.

Lemma u16_small (v : Z) : 0 <= v < 65536 -> u16 v = v.
Proof. intros H. unfold u16. apply Z.mod_small. exact H. Qed.

(** ** The status word *)

Module Status.

(** Modelled from the spec: the bit positions of the status word, whose
    class is declared in a header that is not among the sources.  Section 3:
    bit 7 N, 6 V, 5 unused, 4 B, 3 D, 2 I, 1 Z, 0 C. *)
Definition bitC : Z := 0.
Definition bitZ : Z := 1.
Definition bitI : Z := 2.
Definition bitD : Z := 3.
Definition bitB : Z := 4.
Definition bitU : Z := 5.
Definition bitV : Z := 6.
Definition bitN : Z := 7.

(** Modelled from the spec: storing a truth value in one flag of the 8-bit
    container (section 4.1, "setters"). *)
Definition setFlag (bit : Z) (b : bool) (p : Z) : Z :=
  if b then Z.setbit p bit else Z.clearbit p bit.

(** Modelled from the spec: the predicate accessors of section 4.1
    ([is_carry], [is_zero], [is_interrupt], [is_decimal], [is_break],
    [is_overflow], [is_negative]). *)
Definition isCarry (p : Z) : bool := Z.testbit p bitC.
Definition isZero (p : Z) : bool := Z.testbit p bitZ.
Definition isInterrupt (p : Z) : bool := Z.testbit p bitI.
Definition isDecimal (p : Z) : bool := Z.testbit p bitD.
Definition isBreak (p : Z) : bool := Z.testbit p bitB.
Definition isOverflow (p : Z) : bool := Z.testbit p bitV.
Definition isNegative (p : Z) : bool := Z.testbit p bitN.

(** Modelled from the spec: [getCarry], the carry flag as the number 0 or 1
    that [ADC] adds ("incoming carry C", section 4.5). *)
Definition getCarry (p : Z) : Z := if isCarry p then 1 else 0.

(** Modelled from the spec: [setNegative] fed with a raw value; section 4.1:
    N is bit 7 of the low byte of [v].  The calls of [cpu.cc] whose argument
    is an integer ([sum], [shift], [data], [a], [x]) use the raw-value
    setters. *)
Definition setNegative (v : Z) (p : Z) : Z :=
  setFlag bitN (Z.testbit (Z.land v 0xFF) 7) p.

(** Modelled from the spec: [setZero] fed with a raw value; section 4.1:
    Z is [(v & 0xFF) == 0]. *)
Definition setZero (v : Z) (p : Z) : Z :=
  setFlag bitZ (Z.land v 0xFF =? 0) p.

(** Modelled from the spec: [setCarry] fed with a raw value; section 4.1:
    C is [v > 0xFF]. *)
Definition setCarry (v : Z) (p : Z) : Z :=
  setFlag bitC (0xFF <? v) p.

(** Modelled from the spec: the setters fed with a truth value, which store
    it ([set_overflow(b)] of section 4.1; section 9 reads
    [p.setNegative (data > arg)] as "sets N when data > arg").  The calls of
    [cpu.cc] whose argument is a comparison or the literal [false] use
    these. *)
Definition setNegativeB (b : bool) (p : Z) : Z := setFlag bitN b p.
Definition setZeroB (b : bool) (p : Z) : Z := setFlag bitZ b p.
Definition setCarryB (b : bool) (p : Z) : Z := setFlag bitC b p.
Definition setOverflow (b : bool) (p : Z) : Z := setFlag bitV b p.

(** Modelled from the spec: the status object assigned a literal byte
    ([p = 0x00] in [reset]); sections 2 and 3 have the status word as an
    8-bit flags container, so the byte is stored as it is. *)
Definition ofByte (v : Z) : Z := u8 v.

(** Modelled from the spec: the byte the status object gives when it is
    pushed ([mem -> write(s++, p)] in [PHP]).  Section 3: bit 5 "reads 1",
    and bit 5 and B, observed via a push, are 1; section 4.1: "unused bit 5
    must read as 1 when P is pushed to the stack"; section 4.5: PHP pushes
    [P | 0x30]. *)
Definition toByte (p : Z) : Z := Z.lor (u8 p) 0x30.

(** Modelled from the spec: the status object assigned a byte pulled from
    the stack ([p = mem -> read(s++)] in [PLP]), [old] being the word before
    the assignment.  Section 3: bit 5 and B are ignored when restored via a
    pull; section 4.5: PLP "preserves existing B and forces bit 5 to 1". *)
Definition pulled (old v : Z) : Z :=
  setFlag bitU true (setFlag bitB (isBreak old) (u8 v)).

(** Modelled from the spec: the setters of the D and I flags, fed with a
    truth value ([p.setDecimal (false)] in [CLD], [p.setInterrupt (false)]
    in [CLI]); section 4.5: each flag-control operation forces its single
    bit. *)
Definition setDecimal (b : bool) (p : Z) : Z := setFlag bitD b p.
Definition setInterrupt (b : bool) (p : Z) : Z := setFlag bitI b p.

End Status.

(** ** The bus and the memory facade *)

(** Modelled from the spec: the bus (section 6), which is not among the
    sources: a total map from addresses to bytes.  [wlog] records the writes
    in the order they are issued (section 5: bus accesses are observable in
    issuance order). *)
Record Bus : Type := mkBus {
  cells : Z -> Z;
  wlog : list (Z * Z)
}.

Module Mem.

(** Modelled from the spec: [Mem::read] (section 4.2, "direct
    passthrough"); the class [Mem] is declared in a header that is not among
    the sources.  The address is a [uint16_t], the result a [uint8_t]. *)
Definition read (b : Bus) (addr : Z) : Z := u8 (cells b (u16 addr)).

(** Modelled from the spec: [Mem::write] (section 4.2, "direct
    passthrough"). *)
Definition write (addr data : Z) (b : Bus) : Bus :=
  mkBus (fun k => if k =? u16 addr then u8 data else cells b k)
        (wlog b ++ [(u16 addr, u8 data)]).

(** Modelled from the spec: [read_word_le] (section 4.2): two reads at
    [addr] and [addr + 1], combined little-endian. *)
Definition read_word_le (b : Bus) (addr : Z) : Z :=
  Z.lor (read b addr) (Z.shiftl (read b (u16 (addr + 1))) 8).

(** Modelled from the spec: [abs(pc)] (section 4.2): the word at PC, and PC
    advanced by 2.  The helpers that take the program counter by reference
    return the value together with the advanced counter. *)
Definition abs (b : Bus) (pc : Z) : Z * Z :=
  (read_word_le b pc, u16 (pc + 2)).

(** Modelled from the spec: [abs(pc, idx)] (section 4.2): like [abs], then
    [idx] is added with 16-bit carry.  The page-cross flag is not used by
    [cpu.cc]. *)
Definition abs_idx (b : Bus) (pc idx : Z) : Z * Z :=
  (u16 (read_word_le b pc + idx), u16 (pc + 2)).

(** Modelled from the spec: [zpg(pc)] (section 4.2): the byte at PC,
    zero-extended, and PC advanced by 1. *)
Definition zpg (b : Bus) (pc : Z) : Z * Z :=
  (read b pc, u16 (pc + 1)).

(** Modelled from the spec: [zpg(pc, idx)] (section 4.2): like [zpg], then
    [idx] is added modulo 256. *)
Definition zpg_idx (b : Bus) (pc idx : Z) : Z * Z :=
  (u8 (read b pc + idx), u16 (pc + 1)).

(** Modelled from the spec: [indirect(pc)] (section 4.2): the pointer at PC
    (advance 2), then the word at that pointer; when the low byte of the
    pointer is [0xFF] the high byte is read from [ptr & 0xFF00]. *)
Definition indirect (b : Bus) (pc : Z) : Z * Z :=
  let ptr := read_word_le b pc in
  let hi_addr := if Z.land ptr 0xFF =? 0xFF then Z.land ptr 0xFF00
                 else u16 (ptr + 1) in
  (Z.lor (read b ptr) (Z.shiftl (read b hi_addr) 8), u16 (pc + 2)).

(** Modelled from the spec: the zero-page word of [indexed] (section 4.2):
    the bytes at [ll & 0xFF] and [(ll + 1) & 0xFF], little-endian. *)
Definition zp_word (b : Bus) (ll : Z) : Z :=
  Z.lor (read b (Z.land ll 0xFF)) (Z.shiftl (read b (Z.land (ll + 1) 0xFF)) 8).

(** Modelled from the spec: [indexed(pc, x)] (section 4.2): reads LL at PC
    (advance 1), returns the word at [(LL + x) & 0xFF],
    [(LL + x + 1) & 0xFF]. *)
Definition indexed_x (b : Bus) (pc x : Z) : Z * Z :=
  (zp_word b (read b pc + x), u16 (pc + 1)).

(** Modelled from the spec: [indexed(pc)] (section 4.2): reads LL at PC
    (advance 1), returns the word at [LL], [(LL + 1) & 0xFF]. *)
Definition indexed (b : Bus) (pc : Z) : Z * Z :=
  (zp_word b (read b pc), u16 (pc + 1)).

End Mem.

(** ** Commands *)

Inductive AddrMode : Type :=
| mIMP | mACC | mIMM | mZPG | mZPGX | mZPGY | mABS | mABSX | mABSY
| mIND | mINDX | mINDY | mREL.

(** The operations of [cpu.cc], one constructor for each operation function
    of the file. *)
Inductive Operation : Type :=
| oADC | oSBC | oASL | oLSR | oCMP | oCPX | oCPY | oINX
| oJAM | oJMP | oJSR | oNOP | oPHA | oPHP | oPLA | oPLP
| oAND | oORA | oEOR | oBIT | oINC | oDEC | oINY | oDEX | oDEY
| oLDA | oLDX | oLDY
| oBCC | oBCS | oBEQ | oBNE | oBMI | oBPL | oBVC | oBVS
| oCLC | oCLD | oCLI | oCLV
| oALR | oANC | oANE | oARR | oDCP | oISC | oLAS | oLAX | oLXA
| oBRK | oRLA | oROL | oROR | oRRA | oRTI | oRTS | oSAX | oSBX
| oSEC | oSED | oSEI | oSHA | oSHY | oSHX | oSLO | oSRE
| oSTA | oSTX | oSTY | oTAS | oTAX | oTAY | oTSX | oTXA | oTXS | oTYA
| oUSB.

(** Modelled from the spec: the command entry of section 3 (addressing
    mode, operation, accumulator-mode bit), declared in [cmd.h], which is not
    among the sources.  [isAcc] is what [cmd -> isAcc()] returns. *)
Record Command : Type := mkCommand {
  mode : AddrMode;
  oper : Operation;
  isAcc : bool
}.

(** ** The register file *)

(** Modelled from the spec: the fields of [Cpu], declared in [cpu.h], which
    is not among the sources.  These are the fields [cpu.cc] uses, with the
    widths of section 3: A, X, Y, S and P have 8 bits, PC and [op] 16. *)
Record Cpu : Type := mkCpu {
  a : Z;
  x : Z;
  y : Z;
  s : Z;
  p : Z;
  pc : Z;
  op : Z;
  cmd : Command;
  bus : Bus
}.

Definition with_a (v : Z) (c : Cpu) : Cpu :=
  mkCpu v (x c) (y c) (s c) (p c) (pc c) (op c) (cmd c) (bus c).
Definition with_x (v : Z) (c : Cpu) : Cpu :=
  mkCpu (a c) v (y c) (s c) (p c) (pc c) (op c) (cmd c) (bus c).
Definition with_y (v : Z) (c : Cpu) : Cpu :=
  mkCpu (a c) (x c) v (s c) (p c) (pc c) (op c) (cmd c) (bus c).
Definition with_s (v : Z) (c : Cpu) : Cpu :=
  mkCpu (a c) (x c) (y c) v (p c) (pc c) (op c) (cmd c) (bus c).
Definition with_p (v : Z) (c : Cpu) : Cpu :=
  mkCpu (a c) (x c) (y c) (s c) v (pc c) (op c) (cmd c) (bus c).
Definition with_pc (v : Z) (c : Cpu) : Cpu :=
  mkCpu (a c) (x c) (y c) (s c) (p c) v (op c) (cmd c) (bus c).
Definition with_op (v : Z) (c : Cpu) : Cpu :=
  mkCpu (a c) (x c) (y c) (s c) (p c) (pc c) v (cmd c) (bus c).
Definition with_cmd (v : Command) (c : Cpu) : Cpu :=
  mkCpu (a c) (x c) (y c) (s c) (p c) (pc c) (op c) v (bus c).
Definition with_bus (v : Bus) (c : Cpu) : Cpu :=
  mkCpu (a c) (x c) (y c) (s c) (p c) (pc c) (op c) (cmd c) v.

(** Every register holds a value of its width. *)
Record wf (c : Cpu) : Prop := mkWf {
  wf_a : 0 <= a c < 256;
  wf_x : 0 <= x c < 256;
  wf_y : 0 <= y c < 256;
  wf_s : 0 <= s c < 256;
  wf_p : 0 <= p c < 256;
  wf_pc : 0 <= pc c < 65536;
  wf_op : 0 <= op c < 65536
}.

(** ** [Cpu::read], [Cpu::write] *)

Definition read (c : Cpu) : Z :=
  if isAcc (cmd c) then a c else Mem.read (bus c) (op c).

Definition write (data : Z) (c : Cpu) : Cpu :=
  if isAcc (cmd c) then with_a (u8 data) c
  else with_bus (Mem.write (op c) data (bus c)) c.

(** ** [Cpu::reset] *)

Definition reset (c : Cpu) : Cpu :=
  let c := with_x 0x00 c in
  let c := with_y 0x00 c in
  let c := with_p (Status.ofByte 0x00) c in
  let c := with_s 0x00 c in
  let c := with_a 0x00 c in
  with_pc 0x0000 c.

(** ** The addressing-mode resolvers *)

Definition IMM (c : Cpu) : Cpu :=
  with_pc (u16 (pc c + 1)) (with_op (pc c) c).

Definition set_op_pc (r : Z * Z) (c : Cpu) : Cpu :=
  with_op (fst r) (with_pc (snd r) c).

Definition ABS (c : Cpu) : Cpu := set_op_pc (Mem.abs (bus c) (pc c)) c.
Definition ABSX (c : Cpu) : Cpu := set_op_pc (Mem.abs_idx (bus c) (pc c) (x c)) c.
Definition ABSY (c : Cpu) : Cpu := set_op_pc (Mem.abs_idx (bus c) (pc c) (y c)) c.
Definition ZPG (c : Cpu) : Cpu := set_op_pc (Mem.zpg (bus c) (pc c)) c.
Definition ZPGX (c : Cpu) : Cpu := set_op_pc (Mem.zpg_idx (bus c) (pc c) (x c)) c.
Definition ZPGY (c : Cpu) : Cpu := set_op_pc (Mem.zpg_idx (bus c) (pc c) (y c)) c.
Definition IMP (c : Cpu) : Cpu := c.
Definition ACC (c : Cpu) : Cpu := with_op (a c) c.
Definition IND (c : Cpu) : Cpu := set_op_pc (Mem.indirect (bus c) (pc c)) c.
Definition INDX (c : Cpu) : Cpu := set_op_pc (Mem.indexed_x (bus c) (pc c) (x c)) c.

Definition INDY (c : Cpu) : Cpu :=
  let r := Mem.indexed (bus c) (pc c) in
  let index := fst r in
  let c := with_pc (snd r) c in
  with_op (Z.land 0x00FF (index + y c)) c.

Definition REL (c : Cpu) : Cpu := IMM c.

Definition resolve (m : AddrMode) : Cpu -> Cpu :=
  match m with
  | mIMP => IMP | mACC => ACC | mIMM => IMM
  | mZPG => ZPG | mZPGX => ZPGX | mZPGY => ZPGY
  | mABS => ABS | mABSX => ABSX | mABSY => ABSY
  | mIND => IND | mINDX => INDX | mINDY => INDY
  | mREL => REL
  end.

(** ** The operations *)

(** [Cpu::ADC (uint8_t arg)].  The parameter is a byte: the caller's value
    is converted on entry.  [sum] is a [uint16_t]; the decimal branch of
    the source is empty. *)
Definition ADC_arg (arg : Z) (c : Cpu) : Cpu :=
  let arg := u8 arg in
  let sum := u16 (a c + arg + Status.getCarry (p c)) in
  let c := with_a (u8 sum) c in
  let c := if Status.isDecimal (p c) then c else c in
  let c := with_p (Status.setNegative sum (p c)) c in
  let c := with_p (Status.setZero sum (p c)) c in
  with_p (Status.setCarry sum (p c)) c.

Definition ADC (c : Cpu) : Cpu :=
  let data := read c in
  ADC_arg data c.

(** [Cpu::SBC]: [~data] is computed on [int], that is [-data - 1]. *)
Definition SBC (c : Cpu) : Cpu :=
  let data := read c in
  ADC_arg (Z.lnot data) c.

Definition ASL (c : Cpu) : Cpu :=
  let data := read c in
  let shift := u16 (Z.shiftl data 1) in
  let c := with_p (Status.setNegative shift (p c)) c in
  let c := with_p (Status.setZero shift (p c)) c in
  let c := with_p (Status.setCarry shift (p c)) c in
  write (u8 shift) c.

(** [Cpu::CMP (uint8_t arg)] *)
Definition CMP_arg (arg : Z) (c : Cpu) : Cpu :=
  let arg := u8 arg in
  let data := read c in
  let c := with_p (Status.setNegativeB (data >? arg) (p c)) c in
  let c := with_p (Status.setZeroB (data =? arg) (p c)) c in
  with_p (Status.setCarryB (data <=? arg) (p c)) c.

Definition CMP (c : Cpu) : Cpu := CMP_arg (a c) c.
Definition CPX (c : Cpu) : Cpu := CMP_arg (x c) c.
Definition CPY (c : Cpu) : Cpu := CMP_arg (y c) c.

Definition INX (c : Cpu) : Cpu :=
  let c := with_x (u8 (x c + 1)) c in
  let c := with_p (Status.setNegative (x c) (p c)) c in
  with_p (Status.setZero (x c) (p c)) c.

Definition NOP (c : Cpu) : Cpu := c.

Definition JAM (c : Cpu) : Cpu := NOP c.

Definition JMP (c : Cpu) : Cpu := with_pc (op c) c.

(** [mem -> write(s++, v)]: the address is the old [s], widened to 16 bits. *)
Definition write_s_postinc (v : Z) (c : Cpu) : Cpu :=
  let addr := s c in
  let c := with_s (u8 (s c + 1)) c in
  with_bus (Mem.write addr v (bus c)) c.

(** [mem -> read(s++)]: the byte read, and the state with [s] advanced. *)
Definition read_s_postinc (c : Cpu) : Z * Cpu :=
  let addr := s c in
  let c := with_s (u8 (s c + 1)) c in
  (Mem.read (bus c) addr, c).

Definition JSR (c : Cpu) : Cpu :=
  let lo := u8 (Z.land 0x00FF (pc c)) in
  let hi := u8 (Z.shiftr (Z.land 0xFF00 (pc c)) 8) in
  let c := write_s_postinc lo c in
  let c := write_s_postinc hi c in
  JMP c.

Definition LSR (c : Cpu) : Cpu :=
  let data := u8 (Z.shiftr (read c) 1) in
  let c := with_p (Status.setZero data (p c)) c in
  let c := with_p (Status.setCarry data (p c)) c in
  let c := with_p (Status.setNegativeB false (p c)) c in
  write data c.

Definition PHA (c : Cpu) : Cpu := write_s_postinc (a c) c.

Definition PHP (c : Cpu) : Cpu := write_s_postinc (Status.toByte (p c)) c.

Definition PLA (c : Cpu) : Cpu :=
  let r := read_s_postinc c in
  let c := with_a (fst r) (snd r) in
  let c := with_p (Status.setNegative (a c) (p c)) c in
  with_p (Status.setZero (a c) (p c)) c.

Definition PLP (c : Cpu) : Cpu :=
  let r := read_s_postinc c in
  with_p (Status.pulled (p (snd r)) (fst r)) (snd r).

(** *** Logic *)

(** [a &= read()], [a ^= read()], [a |= read()]: the result is stored in a
    byte. *)

Definition AND (c : Cpu) : Cpu :=
  let c := with_a (u8 (Z.land (a c) (read c))) c in
  let c := with_p (Status.setZero (a c) (p c)) c in
  with_p (Status.setNegative (a c) (p c)) c.

Definition EOR (c : Cpu) : Cpu :=
  let c := with_a (u8 (Z.lxor (a c) (read c))) c in
  let c := with_p (Status.setNegative (a c) (p c)) c in
  with_p (Status.setZero (a c) (p c)) c.

Definition ORA (c : Cpu) : Cpu :=
  let c := with_a (u8 (Z.lor (a c) (read c))) c in
  let c := with_p (Status.setNegative (a c) (p c)) c in
  with_p (Status.setZero (a c) (p c)) c.

(** [Cpu::BIT]: the first two arguments are cast to [bool]; the third,
    [data & a], is an integer. *)
Definition BIT (c : Cpu) : Cpu :=
  let data := read c in
  let c := with_p (Status.setNegativeB (negb (Z.land data 0x80 =? 0)) (p c)) c in
  let c := with_p (Status.setOverflow (negb (Z.land data 0x40 =? 0)) (p c)) c in
  with_p (Status.setZero (Z.land data (a c)) (p c)) c.

(** *** Branches *)

(** [Cpu::BRA]: [pc += (int8_t) read()] on a 16-bit counter. *)
Definition BRA (c : Cpu) : Cpu := with_pc (u16 (pc c + i8 (read c))) c.

Definition BCC (c : Cpu) : Cpu := if negb (Status.isCarry (p c)) then BRA c else c.
Definition BCS (c : Cpu) : Cpu := if Status.isCarry (p c) then BRA c else c.
Definition BEQ (c : Cpu) : Cpu := if Status.isZero (p c) then BRA c else c.
Definition BMI (c : Cpu) : Cpu := if Status.isNegative (p c) then BRA c else c.
Definition BNE (c : Cpu) : Cpu := if negb (Status.isZero (p c)) then BRA c else c.
Definition BPL (c : Cpu) : Cpu := if negb (Status.isNegative (p c)) then BRA c else c.
Definition BVC (c : Cpu) : Cpu := if negb (Status.isOverflow (p c)) then BRA c else c.
Definition BVS (c : Cpu) : Cpu := if Status.isOverflow (p c) then BRA c else c.

(** *** Flag control *)

Definition CLC (c : Cpu) : Cpu := with_p (Status.setCarryB false (p c)) c.
Definition CLD (c : Cpu) : Cpu := with_p (Status.setDecimal false (p c)) c.
Definition CLI (c : Cpu) : Cpu := with_p (Status.setInterrupt false (p c)) c.
Definition CLV (c : Cpu) : Cpu := with_p (Status.setOverflow false (p c)) c.

(** *** Increments, decrements, loads *)

(** [Cpu::DEC]: [auto data = read() - 1] is an [int], which is [-1] when the
    byte read is 0; [write] takes it as a byte. *)
Definition DEC (c : Cpu) : Cpu :=
  let data := read c - 1 in
  let c := with_p (Status.setNegative data (p c)) c in
  let c := with_p (Status.setZero data (p c)) c in
  write data c.

Definition DEX (c : Cpu) : Cpu :=
  let c := with_x (u8 (x c - 1)) c in
  let c := with_p (Status.setNegative (x c) (p c)) c in
  with_p (Status.setZero (x c) (p c)) c.

Definition DEY (c : Cpu) : Cpu :=
  let c := with_y (u8 (y c - 1)) c in
  let c := with_p (Status.setNegative (y c) (p c)) c in
  with_p (Status.setZero (y c) (p c)) c.

(** [Cpu::INC]: [data] is a byte, [data++] wraps. *)
Definition INC (c : Cpu) : Cpu :=
  let data := read c in
  let data := u8 (data + 1) in
  let c := with_p (Status.setNegative data (p c)) c in
  let c := with_p (Status.setZero data (p c)) c in
  write data c.

Definition INY (c : Cpu) : Cpu :=
  let c := with_y (u8 (y c + 1)) c in
  let c := with_p (Status.setNegative (y c) (p c)) c in
  with_p (Status.setZero (y c) (p c)) c.

Definition LDA (c : Cpu) : Cpu :=
  let c := with_a (read c) c in
  let c := with_p (Status.setNegative (a c) (p c)) c in
  with_p (Status.setZero (a c) (p c)) c.

Definition LDX (c : Cpu) : Cpu :=
  let c := with_x (read c) c in
  let c := with_p (Status.setNegative (x c) (p c)) c in
  with_p (Status.setZero (x c) (p c)) c.

Definition LDY (c : Cpu) : Cpu :=
  let c := with_y (read c) c in
  let c := with_p (Status.setNegative (y c) (p c)) c in
  with_p (Status.setZero (y c) (p c)) c.

(** *** Operations left without a body

    [ALR], [ANC], [ANE], [ARR], [DCP], [ISC], [LAS], [LAX] and [LXA] only
    call [NOP()]. *)
Definition ALR (c : Cpu) : Cpu := NOP c.
Definition ANC (c : Cpu) : Cpu := NOP c.
Definition ANE (c : Cpu) : Cpu := NOP c.
Definition ARR (c : Cpu) : Cpu := NOP c.
Definition DCP (c : Cpu) : Cpu := NOP c.
Definition ISC (c : Cpu) : Cpu := NOP c.
Definition LAS (c : Cpu) : Cpu := NOP c.
Definition LAX (c : Cpu) : Cpu := NOP c.
Definition LXA (c : Cpu) : Cpu := NOP c.

(** The body of each of these is [{ }] in the source. *)
Definition BRK (c : Cpu) : Cpu := c.
Definition RLA (c : Cpu) : Cpu := c.
Definition ROL (c : Cpu) : Cpu := c.
Definition ROR (c : Cpu) : Cpu := c.
Definition RRA (c : Cpu) : Cpu := c.
Definition RTI (c : Cpu) : Cpu := c.
Definition RTS (c : Cpu) : Cpu := c.
Definition SAX (c : Cpu) : Cpu := c.
Definition SBX (c : Cpu) : Cpu := c.
Definition SEC (c : Cpu) : Cpu := c.
Definition SED (c : Cpu) : Cpu := c.
Definition SEI (c : Cpu) : Cpu := c.
Definition SHA (c : Cpu) : Cpu := c.
Definition SHY (c : Cpu) : Cpu := c.
Definition SHX (c : Cpu) : Cpu := c.
Definition SLO (c : Cpu) : Cpu := c.
Definition SRE (c : Cpu) : Cpu := c.
Definition STA (c : Cpu) : Cpu := c.
Definition STX (c : Cpu) : Cpu := c.
Definition STY (c : Cpu) : Cpu := c.
Definition TAS (c : Cpu) : Cpu := c.
Definition TAX (c : Cpu) : Cpu := c.
Definition TAY (c : Cpu) : Cpu := c.
Definition TSX (c : Cpu) : Cpu := c.
Definition TXA (c : Cpu) : Cpu := c.
Definition TXS (c : Cpu) : Cpu := c.
Definition TYA (c : Cpu) : Cpu := c.
Definition USB (c : Cpu) : Cpu := c.

(** The operation bodies embedded in this file. *)
Definition operations : list (Cpu -> Cpu) :=
  [ADC; SBC; AND; ORA; EOR; BIT; ASL; LSR; INC; DEC; INX; INY; DEX; DEY;
   LDA; LDX; LDY; CMP; CPX; CPY; BCC; BCS; BEQ; BNE; BMI; BPL; BVC; BVS;
   CLC; CLD; CLI; CLV; JMP; JSR; PHA; PHP; PLA; PLP; NOP; JAM].

(** The number of operand bytes that follow the opcode. *)
Definition operand_len (m : AddrMode) : Z :=
  match m with
  | mIMP | mACC => 0
  | mIMM | mZPG | mZPGX | mZPGY | mINDX | mINDY | mREL => 1
  | mABS | mABSX | mABSY | mIND => 2
  end.

Definition operate (o : Operation) : Cpu -> Cpu :=
  match o with
  | oADC => ADC | oSBC => SBC | oASL => ASL | oLSR => LSR
  | oCMP => CMP | oCPX => CPX | oCPY => CPY | oINX => INX
  | oJAM => JAM | oJMP => JMP | oJSR => JSR | oNOP => NOP
  | oPHA => PHA | oPHP => PHP | oPLA => PLA | oPLP => PLP
  | oAND => AND | oORA => ORA | oEOR => EOR | oBIT => BIT | oINC => INC | oDEC => DEC
  | oINY => INY | oDEX => DEX | oDEY => DEY | oLDA => LDA | oLDX => LDX | oLDY => LDY
  | oBCC => BCC | oBCS => BCS | oBEQ => BEQ | oBNE => BNE | oBMI => BMI | oBPL => BPL
  | oBVC => BVC | oBVS => BVS | oCLC => CLC | oCLD => CLD | oCLI => CLI | oCLV => CLV
  | oALR => ALR | oANC => ANC | oANE => ANE | oARR => ARR | oDCP => DCP | oISC => ISC
  | oLAS => LAS | oLAX => LAX | oLXA => LXA | oBRK => BRK | oRLA => RLA | oROL => ROL
  | oROR => ROR | oRRA => RRA | oRTI => RTI | oRTS => RTS | oSAX => SAX | oSBX => SBX
  | oSEC => SEC | oSED => SED | oSEI => SEI | oSHA => SHA | oSHY => SHY | oSHX => SHX
  | oSLO => SLO | oSRE => SRE | oSTA => STA | oSTX => STX | oSTY => STY | oTAS => TAS
  | oTAX => TAX | oTAY => TAY | oTSX => TSX | oTXA => TXA | oTXS => TXS | oTYA => TYA
  | oUSB => USB
  end.

(** ** [Cpu::clock] *)

(** Modelled from the spec: [Command::execute] (section 4.6, steps 5 and 6):
    the addressing-mode resolver, then the operation body. *)
Definition execute (k : Command) (c : Cpu) : Cpu :=
  operate (oper k) (resolve (mode k) c).

Section Clock.

(** The decode table ([Map::getCommand] of [map.h], which is not among the
    sources) is a parameter of the step. *)
Variable getCommand : Z -> Command.

(** [Cpu::clock]; the trace sink only observes. *)
Definition clock (c : Cpu) : Cpu :=
  let code := Mem.read (bus c) (pc c) in
  let c := with_pc (u16 (pc c + 1)) c in
  let oper := getCommand code in
  let c := with_cmd oper c in
  execute oper c.

End Clock.

(** ** Sample states *)

(** A bus whose cells hold [0] except at the listed addresses. *)
Fixpoint lookup (l : list (Z * Z)) (k : Z) : Z :=
  match l with
  | [] => 0
  | (k', v) :: l' => if k =? k' then v else lookup l' k
  end.

Definition bus_of (l : list (Z * Z)) : Bus := mkBus (lookup l) [].

Definition memCmd (m : AddrMode) (o : Operation) : Command := mkCommand m o false.
Definition accCmd (o : Operation) : Command := mkCommand mACC o true.

(** * Properties *)

(** ** Flags of the status word *)

Lemma testbit_setFlag (k : Z) (b : bool) (w m : Z) :
  0 <= k ->
  Z.testbit (Status.setFlag k b w) m = if k =? m then b else Z.testbit w m.
Proof.
  intros Hk. unfold Status.setFlag. destruct b.
  - rewrite Z.setbit_eqb by exact Hk. destruct (k =? m); reflexivity.
  - rewrite Z.clearbit_eqb. destruct (k =? m); simpl.
    + apply andb_false_r.
    + apply andb_true_r.
Qed.

Lemma low_byte (v : Z) : Z.land v 0xFF = v mod 256.
Proof. change 0xFF with (Z.ones 8). rewrite Z.land_ones by lia. reflexivity. Qed.

Ltac flag_simpl :=
  unfold Status.isCarry, Status.isZero, Status.isNegative, Status.isOverflow,
    Status.isDecimal, Status.isBreak, Status.isInterrupt,
    Status.setNegative, Status.setZero, Status.setCarry,
    Status.setNegativeB, Status.setZeroB, Status.setCarryB, Status.setOverflow;
  repeat (rewrite testbit_setFlag by (vm_compute; discriminate));
  cbn [Status.bitC Status.bitZ Status.bitI Status.bitD Status.bitB Status.bitU
       Status.bitV Status.bitN Z.eqb Pos.eqb].

(** ** Addressing-mode resolvers *)

(** C10: every addressing-mode resolver (IMP, ACC, IMM, ZPG, ZPGX, ZPGY,
    ABS, ABSX, ABSY, IND, INDX, INDY, REL) leaves A, X, Y, S and P as they
    were and issues no memory write: the bus (its cells and the record of
    the writes issued) is the one it started from.  Only [op] and [pc] can
    differ. *)
Theorem resolve_frame (m : AddrMode) (c : Cpu) :
  a (resolve m c) = a c /\ x (resolve m c) = x c /\ y (resolve m c) = y c /\
  s (resolve m c) = s c /\ p (resolve m c) = p c /\
  cells (bus (resolve m c)) = cells (bus c) /\
  wlog (bus (resolve m c)) = wlog (bus c).
Proof.
  destruct m; cbn [resolve]; repeat split.
Qed.

(** What two of the resolvers do change. *)
Lemma IMM_effect (c : Cpu) :
  op (IMM c) = pc c /\ pc (IMM c) = u16 (pc c + 1).
Proof. split; reflexivity. Qed.

Lemma ABSY_effect (c : Cpu) :
  op (ABSY c) = u16 (Mem.read_word_le (bus c) (pc c) + y c) /\
  pc (ABSY c) = u16 (pc c + 2).
Proof. split; reflexivity. Qed.

(** ** Reset *)

(** The reset of section 4.5, as the specification words it. *)
Definition reset_claim (c : Cpu) : Prop :=
  a (reset c) = 0 /\ x (reset c) = 0 /\ y (reset c) = 0 /\
  s (reset c) = 0xFD /\ p (reset c) = 0x24 /\
  pc (reset c) = Mem.read_word_le (bus c) 0xFFFC.

(** A machine in the middle of a program, with the reset vector pointing at
    [0x8000]. *)
Definition running : Cpu :=
  mkCpu 0x12 0x34 0x56 0xF0 0xA1 0x8123 0x0040 (memCmd mIMP oNOP)
        (bus_of [(0xFFFC, 0x00); (0xFFFD, 0x80)]).

(** C6, as stated, fails: after [reset] the stack pointer is [0x00], not
    [0xFD] (and P is [0x00], PC is [0x0000] while the vector holds
    [0x8000]). *)
Lemma reset_claim_fails : ~ reset_claim running.
Proof.
  unfold reset_claim. intros (_ & _ & _ & Hs & _). vm_compute in Hs.
  discriminate Hs.
Qed.

(** C6 (amended): after [reset] the registers A, X and Y are 0, the stack
    pointer S is [0x00], the status word P is [0x00] and PC is [0x0000];
    the vector at [0xFFFC] is not read, and [op], the current command and
    the bus are untouched. *)
Theorem reset_clears (c : Cpu) :
  a (reset c) = 0 /\ x (reset c) = 0 /\ y (reset c) = 0 /\
  s (reset c) = 0 /\ p (reset c) = 0 /\ pc (reset c) = 0 /\
  op (reset c) = op c /\ cmd (reset c) = cmd c /\ bus (reset c) = bus c.
Proof. repeat split. Qed.

(** ** ADC *)

(** The overflow condition of section 4.5: [((A^r)&(M^r)&0x80) != 0]. *)
Definition signed_overflow (A M r : Z) : bool :=
  negb (Z.land (Z.land (Z.lxor A r) (Z.lxor M r)) 0x80 =? 0).

Lemma getCarry_range (w : Z) : 0 <= Status.getCarry w <= 1.
Proof. unfold Status.getCarry. destruct (Status.isCarry w); lia. Qed.

Lemma if_same {A : Type} (b : bool) (v : A) : (if b then v else v) = v.
Proof. destruct b; reflexivity. Qed.

(** Bit 8 of a value below [0x200] is set when the value exceeds [0xFF]. *)
Lemma testbit8_small (v : Z) : 0 <= v < 512 -> Z.testbit v 8 = (0xFF <? v).
Proof.
  intros Hv. destruct (0xFF <? v) eqn:E.
  - apply Z.ltb_lt in E. apply Z.testbit_true; [lia|].
    change (2 ^ 8) with 256.
    replace (v / 256) with 1; [reflexivity|].
    apply Z.div_unique with (v - 256); lia.
  - apply Z.ltb_ge in E. apply Z.testbit_false; [lia|].
    change (2 ^ 8) with 256. rewrite Z.div_small by lia. reflexivity.
Qed.

(** The accumulator, N, Z and C after [ADC (arg)] are those of the sum
    [A + M + C]; the overflow flag is not written. *)
Lemma ADC_arg_effect (m : Z) (c : Cpu) :
  wf c -> 0 <= m < 256 ->
  let sum := a c + m + Status.getCarry (p c) in
  let c' := ADC_arg m c in
  a c' = sum mod 256 /\
  Status.isCarry (p c') = Z.testbit sum 8 /\
  Status.isNegative (p c') = Z.testbit (sum mod 256) 7 /\
  Status.isZero (p c') = (sum mod 256 =? 0) /\
  Status.isOverflow (p c') = Status.isOverflow (p c).
Proof.
  intros Hwf Hm sum c'. destruct Hwf as [Ha _ _ _ _ _ _].
  pose proof (getCarry_range (p c)) as Hc.
  assert (Hsum : 0 <= sum < 512) by (unfold sum; lia).
  subst c'. unfold ADC_arg. rewrite (u8_small m Hm).
  fold sum. rewrite (u16_small sum) by lia. rewrite if_same.
  cbn [a p with_a with_p]. flag_simpl.
  rewrite low_byte, testbit8_small by lia. repeat split.
Qed.

(** ADC on [A = 0x7F], [M = 0x01] (fetched from address [0x0040]), carry
    clear, overflow clear. *)
Definition adc_7F_01 : Cpu :=
  mkCpu 0x7F 0 0 0xFD 0x00 0x8002 0x0040 (memCmd mZPG oADC)
        (bus_of [(0x0040, 0x01)]).

(** C1 at [A = 0x7F], [M = 0x01], [C = 0]: the result is [r = 0x80] with
    N = 1, Z = 0, C = 0, and [((A^r)&(M^r)&0x80) != 0], yet the overflow
    flag is still clear after [ADC]: the operation never writes V. *)
Theorem ADC_leaves_overflow_clear :
  read adc_7F_01 = 0x01 /\
  a (ADC adc_7F_01) = 0x80 /\
  Status.isNegative (p (ADC adc_7F_01)) = true /\
  Status.isZero (p (ADC adc_7F_01)) = false /\
  Status.isCarry (p (ADC adc_7F_01)) = false /\
  signed_overflow 0x7F 0x01 0x80 = true /\
  Status.isOverflow (p (ADC adc_7F_01)) = false.
Proof. vm_compute. repeat split. Qed.

(** Two boundary cases of section 8: [0xFF + 0x01] gives [0x00] with Z and C
    set; SBC of [0x01] from [0x00] with the carry set gives [0xFF] with N
    set and C clear. *)
Example ADC_FF_01 :
  let c := ADC (mkCpu 0xFF 0 0 0xFD 0x00 0x8002 0x0040 (memCmd mZPG oADC)
                      (bus_of [(0x0040, 0x01)])) in
  a c = 0x00 /\ Status.isZero (p c) = true /\ Status.isCarry (p c) = true /\
  Status.isNegative (p c) = false.
Proof. vm_compute. repeat split. Qed.

Example SBC_00_01 :
  let c := SBC (mkCpu 0x00 0 0 0xFD 0x01 0x8002 0x0040 (memCmd mZPG oSBC)
                      (bus_of [(0x0040, 0x01)])) in
  a c = 0xFF /\ Status.isZero (p c) = false /\ Status.isCarry (p c) = false /\
  Status.isNegative (p c) = true.
Proof. vm_compute. repeat split. Qed.

(** ** CMP, CPX, CPY *)

(** The compare of section 4.5, as the specification words it: C when
    [reg >= M], Z when [reg == M], N from bit 7 of the low byte of the
    16-bit difference. *)
Definition compare_claim (reg : Z) (c c' : Cpu) : Prop :=
  let M := read c in
  Status.isCarry (p c') = (M <=? reg) /\
  Status.isZero (p c') = (reg =? M) /\
  Status.isNegative (p c') = Z.testbit (Z.land (u16 (reg - M)) 0xFF) 7.

(** What the source computes: N when [reg < M]. *)
Definition compare_flags (reg : Z) (c c' : Cpu) : Prop :=
  let M := read c in
  Status.isCarry (p c') = (M <=? reg) /\
  Status.isZero (p c') = (reg =? M) /\
  Status.isNegative (p c') = (reg <? M).

Definition cmp_80_00 : Cpu :=
  mkCpu 0x80 0 0 0xFD 0x00 0x8002 0x0040 (memCmd mZPG oCMP)
        (bus_of [(0x0040, 0x00)]).

Definition cmp_40_41 : Cpu :=
  mkCpu 0x40 0 0 0xFD 0x00 0x8002 0x0040 (memCmd mZPG oCMP)
        (bus_of [(0x0040, 0x41)]).

(** C2, as stated, fails: CMP with [A = 0x80] and [M = 0x00] has the
    difference [0x80], whose bit 7 is set, and the source leaves N clear. *)
Lemma compare_claim_fails : ~ compare_claim (a cmp_80_00) cmp_80_00 (CMP cmp_80_00).
Proof.
  unfold compare_claim. intros (_ & _ & HN). vm_compute in HN. discriminate HN.
Qed.

Lemma CMP_arg_effect (reg : Z) (c : Cpu) :
  0 <= reg < 256 -> compare_flags reg c (CMP_arg reg c).
Proof.
  intros Hreg. unfold compare_flags, CMP_arg. rewrite (u8_small reg Hreg).
  cbn [p with_p]. flag_simpl. repeat split.
  - apply Z.eqb_sym.
  - apply Z.gtb_ltb.
Qed.

(** C2 (amended): for the register value reg (A for CMP, X for CPX, Y for
    CPY) and the fetched operand byte M, the compare sets C exactly when
    [reg >= M], Z exactly when [reg == M], and N exactly when [reg < M]
    (an unsigned comparison, not bit 7 of the difference). *)
Theorem compare_sets_flags (c : Cpu) (H : wf c) :
  compare_flags (a c) c (CMP c) /\
  compare_flags (x c) c (CPX c) /\
  compare_flags (y c) c (CPY c).
Proof.
  destruct H as [Ha Hx Hy _ _ _ _].
  repeat split; apply CMP_arg_effect; assumption.
Qed.

(** CMP with [A = 0x40] and [M = 0x41] yields N = 1, Z = 0, C = 0. *)
Lemma compare_sets_flags_witness :
  wf cmp_40_41 /\ read cmp_40_41 = 0x41 /\
  Status.isNegative (p (CMP cmp_40_41)) = true /\
  Status.isZero (p (CMP cmp_40_41)) = false /\
  Status.isCarry (p (CMP cmp_40_41)) = false.
Proof.
  assert (Hwf : wf cmp_40_41) by (constructor; vm_compute; split; congruence).
  split; [exact Hwf|].
  destruct (compare_sets_flags cmp_40_41 Hwf) as [(HC & HZ & HN) _].
  split; [reflexivity|].
  rewrite HC, HZ, HN. vm_compute. repeat split.
Defined.

(** ** The stack: JSR, PHA, PLA, PHP, PLP *)

(** A number whose bits from position 8 on are clear is a byte. *)
Lemma bits_high_byte_early (v : Z) :
  (forall i, 8 <= i -> Z.testbit v i = false) -> 0 <= v < 256.
Proof.
  intros Hhi.
  assert (E : v mod 2 ^ 8 = v).
  { apply Z.bits_inj'. intros i Hi. rewrite Z.testbit_mod_pow2 by lia.
    destruct (i <? 8) eqn:L; simpl; [reflexivity|].
    apply Z.ltb_ge in L. symmetry. apply Hhi. exact L. }
  rewrite <- E. apply Z.mod_pos_bound. lia.
Qed.

Lemma write_s_postinc_effect (v : Z) (c : Cpu) :
  0 <= s c < 256 ->
  wlog (bus (write_s_postinc v c)) = wlog (bus c) ++ [(s c, u8 v)] /\
  cells (bus (write_s_postinc v c)) (s c) = u8 v /\
  s (write_s_postinc v c) = u8 (s c + 1) /\
  a (write_s_postinc v c) = a c /\ x (write_s_postinc v c) = x c /\
  y (write_s_postinc v c) = y c /\ p (write_s_postinc v c) = p c /\
  pc (write_s_postinc v c) = pc c /\ op (write_s_postinc v c) = op c.
Proof.
  intros Hs. unfold write_s_postinc, Mem.write.
  cbn [a x y s p pc op bus with_s with_bus wlog cells].
  rewrite (u16_small (s c)) by lia. rewrite Z.eqb_refl. repeat split.
Qed.

(** The call of section 4.5, as the specification words it: [PC - 1] is
    pushed, high byte then low byte, at [0x0100 | S] with S decremented
    after each push, and PC becomes [op]. *)
Definition JSR_claim (c : Cpu) : Prop :=
  let ret := u16 (pc c - 1) in
  wlog (bus (JSR c)) =
    wlog (bus c) ++ [(Z.lor 0x0100 (s c), Z.shiftr ret 8);
                     (Z.lor 0x0100 (u8 (s c - 1)), Z.land ret 0xFF)] /\
  s (JSR c) = u8 (s c - 2) /\
  pc (JSR c) = op c.

(** JSR [$9000] fetched at [0x8000]: PC is [0x8003] once the operand has
    been read, S is [0xFD]. *)
Definition jsr_8003 : Cpu :=
  mkCpu 0 0 0 0xFD 0x00 0x8003 0x9000 (memCmd mABS oJSR) (bus_of []).

(** C3, as stated, fails: the two writes of JSR go to [0x00FD] and
    [0x00FE], not to [0x01FD] and [0x01FC], and S ends at [0xFF], not
    [0xFB]. *)
Lemma JSR_claim_fails : ~ JSR_claim jsr_8003.
Proof.
  unfold JSR_claim. intros (Hw & _). vm_compute in Hw. discriminate Hw.
Qed.

(** The bytes that JSR stores: the low byte of PC, then its high byte. *)
Lemma JSR_pushed_bytes (c : Cpu) :
  wf c ->
  wlog (bus (JSR c)) =
    wlog (bus c) ++ [(s c, Z.land 0x00FF (pc c));
                     (u8 (s c + 1), Z.shiftr (Z.land 0xFF00 (pc c)) 8)].
Proof.
  intros [_ _ _ Hs _ Hpc _]. unfold JSR, JMP.
  set (lo := u8 (Z.land 255 (pc c))).
  set (hi := u8 (Z.shiftr (Z.land 65280 (pc c)) 8)).
  cbn [bus with_pc].
  destruct (write_s_postinc_effect lo c Hs) as (Hw1 & _ & Hs1 & _).
  assert (Hs1' : 0 <= s (write_s_postinc lo c) < 256)
    by (rewrite Hs1; apply u8_range).
  destruct (write_s_postinc_effect hi (write_s_postinc lo c) Hs1')
    as (Hw2 & _).
  rewrite Hw2, Hw1, Hs1, <- app_assoc. cbn [app].
  assert (Hlo : 0 <= Z.land 255 (pc c) < 256).
  { rewrite Z.land_comm. rewrite low_byte. apply Z.mod_pos_bound. lia. }
  assert (Hhi : 0 <= Z.shiftr (Z.land 65280 (pc c)) 8 < 256).
  { rewrite Z.shiftr_land. change (Z.shiftr 65280 8) with 255.
    rewrite Z.land_comm, low_byte. apply Z.mod_pos_bound. lia. }
  unfold lo, hi. rewrite !(u8_small _ Hlo), !(u8_small _ Hhi). reflexivity.
Qed.

(** C3 (amended): JSR issues exactly two pushes; each writes at the address
    S itself (no [0x0100] base) and S is incremented, modulo 256, after each,
    so that the writes go to S and S + 1 and no other cell changes; then PC
    becomes [op].  A, X, Y and P are untouched. *)
Theorem JSR_effect (c : Cpu) (H : wf c) :
  (exists b1 b2,
     wlog (bus (JSR c)) = wlog (bus c) ++ [(s c, b1); (u8 (s c + 1), b2)]) /\
  (forall k, k <> s c -> k <> u8 (s c + 1) ->
     cells (bus (JSR c)) k = cells (bus c) k) /\
  s (JSR c) = u8 (s c + 2) /\
  pc (JSR c) = op c /\
  a (JSR c) = a c /\ x (JSR c) = x c /\ y (JSR c) = y c /\ p (JSR c) = p c.
Proof.
  split; [|split].
  - eexists. eexists. apply JSR_pushed_bytes. exact H.
  - destruct H as [_ _ _ Hs _ _ _]. intros k Hk1 Hk2.
    unfold JSR, JMP, write_s_postinc, Mem.write.
    cbn [s bus cells with_s with_bus with_pc].
    rewrite (u16_small (s c)) by lia.
    rewrite (u16_small (u8 (s c + 1)))
      by (pose proof (u8_range (s c + 1)); lia).
    apply Z.eqb_neq in Hk1. apply Z.eqb_neq in Hk2.
    rewrite Hk1, Hk2. reflexivity.
  - destruct H as [_ _ _ Hs _ _ _]. unfold JSR, JMP, write_s_postinc.
    cbn [a x y s p pc op with_s with_bus with_pc]. repeat split.
    unfold u8. rewrite Zplus_mod_idemp_l. f_equal. lia.
Qed.

(** On the call fetched at [0x8000] with [S = 0xFD]: the writes go to
    [0x00FD] and [0x00FE], S ends at [0xFF] and PC at [0x9000]. *)
Lemma JSR_effect_witness :
  wf jsr_8003 /\
  map fst (wlog (bus (JSR jsr_8003))) = [0x00FD; 0x00FE] /\
  s (JSR jsr_8003) = 0xFF /\ pc (JSR jsr_8003) = 0x9000.
Proof.
  assert (Hwf : wf jsr_8003) by (constructor; vm_compute; split; congruence).
  split; [exact Hwf|].
  destruct (JSR_effect jsr_8003 Hwf) as ((b1 & b2 & Hw) & _ & Hs & Hpc & _).
  rewrite Hw, Hs, Hpc. vm_compute. repeat split.
Defined.

(** The push and the pull of section 4.5, as the specification words them:
    the pushed byte goes to [0x0100 | S] and S is then decremented; the pull
    increments S and then loads from [0x0100 | S]. *)
Definition PHA_claim (c : Cpu) : Prop :=
  wlog (bus (PHA c)) = wlog (bus c) ++ [(Z.lor 0x0100 (s c), a c)] /\
  s (PHA c) = u8 (s c - 1).

Definition PLA_claim (c : Cpu) : Prop :=
  s (PLA c) = u8 (s c + 1) /\
  a (PLA c) = Mem.read (bus c) (Z.lor 0x0100 (u8 (s c + 1))).

(** PHA with [S = 0x00] and [A = 0x5A]. *)
Definition pha_00 : Cpu :=
  mkCpu 0x5A 0 0 0x00 0x00 0x8001 0x0000 (memCmd mIMP oPHA) (bus_of []).

(** PHA with [S = 0xFF] and [A = 0x5A]. *)
Definition pha_FF : Cpu :=
  mkCpu 0x5A 0 0 0xFF 0x00 0x8001 0x0000 (memCmd mIMP oPHA) (bus_of []).

(** C4, as stated, fails: PHA with [S = 0x00] writes to [0x0000] and leaves
    [S = 0x01]; the claim has the write at [0x0100] and [S = 0xFF]. *)
Lemma PHA_claim_fails : ~ PHA_claim pha_00.
Proof.
  unfold PHA_claim. intros (_ & Hs). vm_compute in Hs. discriminate Hs.
Qed.

(** PLA with [S = 0xFC], the byte [0x11] at [0x00FC] and the byte [0x22] at
    [0x01FD]. *)
Definition pla_FC : Cpu :=
  mkCpu 0 0 0 0xFC 0x00 0x8001 0x0000 (memCmd mIMP oPLA)
        (bus_of [(0x00FC, 0x11); (0x01FD, 0x22)]).

(** The pull half of the same statement fails too: PLA loads the byte at
    [0x00FC], not the one at [0x01FD]. *)
Lemma PLA_claim_fails : ~ PLA_claim pla_FC.
Proof.
  unfold PLA_claim. intros (_ & Ha). vm_compute in Ha. discriminate Ha.
Qed.

Lemma PHA_wraps_at_00 :
  wlog (bus (PHA pha_00)) = [(0x0000, 0x5A)] /\ s (PHA pha_00) = 0x01.
Proof. split; reflexivity. Qed.

(** What PLA does is no part of the amended statement: it reads at the
    address S and then increments S, as PHA does, so it cannot pull what PHA
    pushed.  PHA from [S = 0xFD] stores [0x5A] at [0x00FD]; PLA then loads
    the byte at [0x00FE] and leaves [S = 0xFF]. *)
Definition pha_FD : Cpu :=
  mkCpu 0x5A 0 0 0xFD 0x00 0x8001 0x0000 (memCmd mIMP oPHA) (bus_of []).

Lemma PLA_misses_pushed_byte :
  cells (bus (PHA pha_FD)) 0x00FD = 0x5A /\
  a (PLA (PHA pha_FD)) = 0x00 /\ s (PLA (PHA pha_FD)) = 0xFF.
Proof. vm_compute. repeat split. Qed.

(** C4 (amended): for every stack pointer S, PHA stores A at the address S
    itself (no [0x0100] base) and then increments S; S wraps modulo 256, so
    PHA with [S = 0xFF] writes to [0x00FF] and leaves [S = 0x00]. *)
Theorem PHA_effect (c : Cpu) (H : wf c) :
  wlog (bus (PHA c)) = wlog (bus c) ++ [(s c, a c)] /\
  cells (bus (PHA c)) (s c) = a c /\
  s (PHA c) = u8 (s c + 1) /\
  (s c = 0xFF -> s (PHA c) = 0x00).
Proof.
  destruct H as [Ha _ _ Hs _ _ _]. unfold PHA.
  destruct (write_s_postinc_effect (a c) c Hs) as (Hw & Hc & Hs' & _).
  rewrite Hw, Hc, Hs', (u8_small (a c) Ha). repeat split.
  intros E. rewrite E. reflexivity.
Qed.

(** PHA with [S = 0xFF] writes to [0x00FF] and leaves [S = 0x00]. *)
Lemma PHA_effect_witness :
  wf pha_FF /\
  wlog (bus (PHA pha_FF)) = [(0x00FF, 0x5A)] /\ s (PHA pha_FF) = 0x00.
Proof.
  assert (Hwf : wf pha_FF) by (constructor; vm_compute; split; congruence).
  split; [exact Hwf|].
  destruct (PHA_effect pha_FF Hwf) as (Hw & _ & _ & Hwrap).
  rewrite Hw, (Hwrap eq_refl). split; reflexivity.
Defined.

(** ** PHP and PLP *)

Lemma toByte_range (w : Z) : 0 <= Status.toByte w < 256.
Proof.
  unfold Status.toByte, u8. apply bits_high_byte_early. intros i Hi.
  rewrite Z.lor_spec. change 256 with (2 ^ 8).
  rewrite (Z.mod_pow2_bits_high w 8 i) by lia.
  change 48 with (Z.lor (2 ^ 4) (2 ^ 5)).
  rewrite Z.lor_spec, !Z.pow2_bits_false by lia. reflexivity.
Qed.





(** ** (Indirect),Y *)

(** The resolver never produces an address outside page zero. *)
Lemma INDY_op_in_page_zero (c : Cpu) : 0 <= op (INDY c) < 256.
Proof.
  unfold INDY. cbn [op with_op]. rewrite Z.land_comm, low_byte.
  apply Z.mod_pos_bound. lia.
Qed.

(** [(0x10),Y] with the pointer [0x1234] stored at [0x10], [0x11] and
    [Y = 0x01]; the operand byte is at PC. *)
Definition indy_1234 : Cpu :=
  mkCpu 0 0 0x01 0xFD 0x00 0x8001 0x0000 (memCmd mINDY oADC)
        (bus_of [(0x8001, 0x10); (0x0010, 0x34); (0x0011, 0x12)]).

(** C7 at [LL = 0x10], pointer [0x1234], [Y = 0x01]: the word fetched is
    [0x1234] and the address asked for is [0x1235], but [op] is [0x0035]:
    the sum is masked with [0x00FF]. *)
Theorem INDY_drops_high_byte :
  fst (Mem.indexed (bus indy_1234) (pc indy_1234)) = 0x1234 /\
  u16 (0x1234 + y indy_1234) = 0x1235 /\
  op (INDY indy_1234) = 0x0035 /\
  pc (INDY indy_1234) = 0x8002.
Proof. vm_compute. repeat split. Qed.

(** ** LSR *)

(** The carry is always clear after LSR: the byte given to the carry setter
    is the shifted one, which never exceeds [0xFF]. *)
Lemma LSR_clears_carry (c : Cpu) : Status.isCarry (p (LSR c)) = false.
Proof.
  unfold LSR.
  set (data := u8 (Z.shiftr (read c) 1)).
  assert (Hp : forall d c0, p (write d c0) = p c0)
    by (intros d c0; unfold write; destruct (isAcc (cmd c0)); reflexivity).
  rewrite Hp. cbn [p with_p]. flag_simpl.
  pose proof (u8_range (Z.shiftr (read c) 1)) as Hd. fold data in Hd.
  apply Z.ltb_ge. lia.
Qed.

(** The shifted byte, N and Z are as section 4.5 has them. *)
Lemma LSR_result (c : Cpu) :
  0 <= read c < 256 ->
  let r := Z.shiftr (read c) 1 in
  (if isAcc (cmd c) then a (LSR c) = r
   else cells (bus (LSR c)) (u16 (op c)) = r) /\
  Status.isNegative (p (LSR c)) = false /\
  Status.isZero (p (LSR c)) = (r =? 0).
Proof.
  intros Hr r.
  assert (Hr' : 0 <= r < 256).
  { unfold r. rewrite Z.shiftr_div_pow2 by lia. change (2 ^ 1) with 2.
    split; [apply Z.div_pos; lia | apply Z.div_lt_upper_bound; lia]. }
  unfold LSR. fold r. rewrite (u8_small r Hr'). unfold write.
  cbn [cmd op bus with_p].
  destruct (isAcc (cmd c));
    cbn [a p bus cells with_a with_p with_bus Mem.write];
    flag_simpl; rewrite ?Z.eqb_refl, low_byte, ?(u8_small r Hr');
    rewrite (Z.mod_small r 256) by lia; repeat split.
Qed.

(** LSR A with [A = 0x01]. *)
Definition lsr_acc_01 : Cpu :=
  mkCpu 0x01 0 0 0xFD 0x00 0x8001 0x0001 (accCmd oLSR) (bus_of []).

(** LSR on the byte [0x01] stored at [0x0040]. *)
Definition lsr_mem_01 : Cpu :=
  mkCpu 0x77 0 0 0xFD 0x00 0x8002 0x0040 (memCmd mZPG oLSR)
        (bus_of [(0x0040, 0x01)]).

(** C8 at the input [0x01], on the accumulator and on memory: bit 0 of the
    input is set, the result is [0x00] with Z = 1 and N = 0, and the carry
    is clear after LSR. *)
Theorem LSR_loses_carry :
  Z.testbit (read lsr_acc_01) 0 = true /\
  a (LSR lsr_acc_01) = 0x00 /\
  Status.isZero (p (LSR lsr_acc_01)) = true /\
  Status.isNegative (p (LSR lsr_acc_01)) = false /\
  Status.isCarry (p (LSR lsr_acc_01)) = false /\
  Z.testbit (read lsr_mem_01) 0 = true /\
  wlog (bus (LSR lsr_mem_01)) = [(0x0040, 0x00)] /\
  a (LSR lsr_mem_01) = 0x77 /\
  Status.isCarry (p (LSR lsr_mem_01)) = false.
Proof. vm_compute. repeat split. Qed.

(** ** JAM *)

Lemma JAM_is_NOP (c : Cpu) : JAM c = c.
Proof. reflexivity. Qed.

(** Three entries of a decode table, as the canonical 6502 table has them:
    [0x02] is JAM, [0xE8] is INX, [0xEA] is NOP, all implied; the other
    bytes are not used by the example below and decode to NOP here. *)
Definition jamTable (code : Z) : Command :=
  if code =? 0x02 then memCmd mIMP oJAM
  else if code =? 0xE8 then memCmd mIMP oINX
  else memCmd mIMP oNOP.

(** The program [JAM; INX] at [0x8000]. *)
Definition jam_then_inx : Cpu :=
  mkCpu 0 0 0 0xFD 0x00 0x8000 0x0000 (memCmd mIMP oNOP)
        (bus_of [(0x8000, 0x02); (0x8001, 0xE8)]).

(** C9 on the program [JAM; INX]: the step that executes JAM only moves PC
    to the next byte, and the following step executes INX: X becomes 1 and
    PC reaches [0x8002].  Nothing is latched. *)
Theorem JAM_does_not_halt :
  oper (jamTable (Mem.read (bus jam_then_inx) (pc jam_then_inx))) = oJAM /\
  pc (clock jamTable jam_then_inx) = 0x8001 /\
  x (clock jamTable jam_then_inx) = 0 /\
  x (clock jamTable (clock jamTable jam_then_inx)) = 1 /\
  pc (clock jamTable (clock jamTable jam_then_inx)) = 0x8002.
Proof. vm_compute. repeat split. Qed.

(** * Further properties of the core *)

(** ** Ranges *)

Lemma bits_high_range (n v : Z) :
  0 <= n -> (forall i, n <= i -> Z.testbit v i = false) -> 0 <= v < 2 ^ n.
Proof.
  intros Hn Hhi.
  assert (E : v mod 2 ^ n = v).
  { apply Z.bits_inj'. intros i Hi. rewrite Z.testbit_mod_pow2 by exact Hn.
    destruct (i <? n) eqn:L; simpl; [reflexivity|].
    apply Z.ltb_ge in L. symmetry. apply Hhi. exact L. }
  rewrite <- E. apply Z.mod_pos_bound. apply Z.pow_pos_nonneg; lia.
Qed.

Lemma range_bits_high (n v i : Z) :
  0 <= n -> 0 <= v < 2 ^ n -> n <= i -> Z.testbit v i = false.
Proof.
  intros Hn Hv Hi. rewrite <- (Z.mod_small v (2 ^ n)) by exact Hv.
  apply Z.mod_pow2_bits_high. lia.
Qed.

Lemma byte_bits_high (v i : Z) : 0 <= v < 256 -> 8 <= i -> Z.testbit v i = false.
Proof. intros Hv Hi. apply (range_bits_high 8); [lia | exact Hv | exact Hi]. Qed.

Lemma bits_high_byte (v : Z) :
  (forall i, 8 <= i -> Z.testbit v i = false) -> 0 <= v < 256.
Proof. intros H. apply (bits_high_range 8); [lia | exact H]. Qed.

Lemma setFlag_range (k : Z) (b : bool) (w : Z) :
  0 <= k < 8 -> 0 <= w < 256 -> 0 <= Status.setFlag k b w < 256.
Proof.
  intros Hk Hw. apply bits_high_byte. intros i Hi.
  rewrite testbit_setFlag by lia.
  destruct (k =? i) eqn:E; [apply Z.eqb_eq in E; lia|].
  apply byte_bits_high; assumption.
Qed.

Lemma land_byte (v w : Z) : 0 <= w < 256 -> 0 <= Z.land v w < 256.
Proof.
  intros Hw. apply bits_high_byte. intros i Hi. rewrite Z.land_spec.
  rewrite (byte_bits_high w i Hw Hi). apply andb_false_r.
Qed.

Lemma lor_byte (v w : Z) : 0 <= v < 256 -> 0 <= w < 256 -> 0 <= Z.lor v w < 256.
Proof.
  intros Hv Hw. apply bits_high_byte. intros i Hi. rewrite Z.lor_spec.
  rewrite (byte_bits_high v i Hv Hi), (byte_bits_high w i Hw Hi). reflexivity.
Qed.

Lemma lxor_byte (v w : Z) : 0 <= v < 256 -> 0 <= w < 256 -> 0 <= Z.lxor v w < 256.
Proof.
  intros Hv Hw. apply bits_high_byte. intros i Hi. rewrite Z.lxor_spec.
  rewrite (byte_bits_high v i Hv Hi), (byte_bits_high w i Hw Hi). reflexivity.
Qed.

(** A byte in the low half and a byte shifted into the high half make a
    16-bit word. *)
Lemma word_of_bytes_range (lo hi : Z) :
  0 <= lo < 256 -> 0 <= hi < 256 -> 0 <= Z.lor lo (Z.shiftl hi 8) < 65536.
Proof.
  intros Hlo Hhi. apply (bits_high_range 16); [lia|]. intros i Hi.
  rewrite Z.lor_spec, Z.shiftl_spec by lia.
  rewrite (byte_bits_high lo i Hlo) by lia.
  rewrite (byte_bits_high hi (i - 8) Hhi) by lia. reflexivity.
Qed.

Lemma Mem_read_range (b : Bus) (addr : Z) : 0 <= Mem.read b addr < 256.
Proof. apply u8_range. Qed.

Lemma read_word_le_range (b : Bus) (addr : Z) :
  0 <= Mem.read_word_le b addr < 65536.
Proof. apply word_of_bytes_range; apply Mem_read_range. Qed.

Lemma zp_word_range (b : Bus) (ll : Z) : 0 <= Mem.zp_word b ll < 65536.
Proof. apply word_of_bytes_range; apply Mem_read_range. Qed.

Lemma read_range (c : Cpu) : wf c -> 0 <= read c < 256.
Proof.
  intros H. unfold read. destruct (isAcc (cmd c)).
  - apply (wf_a c H).
  - apply Mem_read_range.
Qed.

Lemma i8_range (v : Z) : -128 <= i8 v < 128.
Proof.
  unfold i8. pose proof (u8_range v). destruct (u8 v <? 128) eqn:E.
  - apply Z.ltb_lt in E. lia.
  - apply Z.ltb_ge in E. lia.
Qed.

(** ** Every register keeps its width *)

Lemma wf_with_a (v : Z) (c : Cpu) : wf c -> 0 <= v < 256 -> wf (with_a v c).
Proof. intros [] Hv. constructor; assumption. Qed.

Lemma wf_with_x (v : Z) (c : Cpu) : wf c -> 0 <= v < 256 -> wf (with_x v c).
Proof. intros [] Hv. constructor; assumption. Qed.

Lemma wf_with_y (v : Z) (c : Cpu) : wf c -> 0 <= v < 256 -> wf (with_y v c).
Proof. intros [] Hv. constructor; assumption. Qed.

Lemma wf_with_s (v : Z) (c : Cpu) : wf c -> 0 <= v < 256 -> wf (with_s v c).
Proof. intros [] Hv. constructor; assumption. Qed.

Lemma wf_with_p (v : Z) (c : Cpu) : wf c -> 0 <= v < 256 -> wf (with_p v c).
Proof. intros [] Hv. constructor; assumption. Qed.

Lemma wf_with_pc (v : Z) (c : Cpu) : wf c -> 0 <= v < 65536 -> wf (with_pc v c).
Proof. intros [] Hv. constructor; assumption. Qed.

Lemma wf_with_op (v : Z) (c : Cpu) : wf c -> 0 <= v < 65536 -> wf (with_op v c).
Proof. intros [] Hv. constructor; assumption. Qed.

Lemma wf_with_cmd (k : Command) (c : Cpu) : wf c -> wf (with_cmd k c).
Proof. intros []. constructor; assumption. Qed.

Lemma wf_with_bus (b : Bus) (c : Cpu) : wf c -> wf (with_bus b c).
Proof. intros []. constructor; assumption. Qed.

Lemma wf_write (d : Z) (c : Cpu) : wf c -> wf (write d c).
Proof.
  intros H. unfold write. destruct (isAcc (cmd c)).
  - apply wf_with_a; [exact H | apply u8_range].
  - apply wf_with_bus. exact H.
Qed.

Lemma wf_write_s_postinc (v : Z) (c : Cpu) : wf c -> wf (write_s_postinc v c).
Proof.
  intros H. unfold write_s_postinc. apply wf_with_bus.
  apply wf_with_s; [exact H | apply u8_range].
Qed.

Lemma wf_read_s_postinc (c : Cpu) : wf c -> wf (snd (read_s_postinc c)).
Proof.
  intros H. unfold read_s_postinc. cbn [snd].
  apply wf_with_s; [exact H | apply u8_range].
Qed.

Lemma wf_set_op_pc (r : Z * Z) (c : Cpu) :
  wf c -> 0 <= fst r < 65536 -> 0 <= snd r < 65536 -> wf (set_op_pc r c).
Proof.
  intros H H1 H2. unfold set_op_pc.
  apply wf_with_op; [apply wf_with_pc|]; assumption.
Qed.

Lemma value_setter_range (v w : Z) :
  0 <= w < 256 ->
  0 <= Status.setNegative v w < 256 /\ 0 <= Status.setZero v w < 256 /\
  0 <= Status.setCarry v w < 256.
Proof.
  intros Hw. repeat split; apply setFlag_range;
    (exact Hw || (vm_compute; split; congruence)).
Qed.

Lemma truth_setter_range (b : bool) (w : Z) :
  0 <= w < 256 ->
  0 <= Status.setNegativeB b w < 256 /\ 0 <= Status.setZeroB b w < 256 /\
  0 <= Status.setCarryB b w < 256 /\ 0 <= Status.setOverflow b w < 256 /\
  0 <= Status.setDecimal b w < 256 /\ 0 <= Status.setInterrupt b w < 256.
Proof.
  intros Hw. repeat split; apply setFlag_range;
    (exact Hw || (vm_compute; split; congruence)).
Qed.

Lemma pulled_range (old v : Z) : 0 <= Status.pulled old v < 256.
Proof.
  unfold Status.pulled.
  apply setFlag_range; [vm_compute; split; congruence|].
  apply setFlag_range; [vm_compute; split; congruence | apply u8_range].
Qed.

Lemma byte_is_word (v : Z) : 0 <= v < 256 -> 0 <= v < 65536.
Proof. lia. Qed.

(** One step of the width argument: the outermost update writes a value of
    the right width. *)
Ltac wf_step :=
  match goal with
  | |- wf (with_a _ _) => apply wf_with_a
  | |- wf (with_x _ _) => apply wf_with_x
  | |- wf (with_y _ _) => apply wf_with_y
  | |- wf (with_s _ _) => apply wf_with_s
  | |- wf (with_p _ _) => apply wf_with_p
  | |- wf (with_pc _ _) => apply wf_with_pc
  | |- wf (with_op _ _) => apply wf_with_op
  | |- wf (with_cmd _ _) => apply wf_with_cmd
  | |- wf (with_bus _ _) => apply wf_with_bus
  | |- wf (write _ _) => apply wf_write
  | |- wf (write_s_postinc _ _) => apply wf_write_s_postinc
  | |- wf (snd (read_s_postinc _)) => apply wf_read_s_postinc
  | |- wf (set_op_pc _ _) => apply wf_set_op_pc
  | |- wf (if ?b then _ else _) => destruct b
  | |- 0 <= u8 _ < 256 => apply u8_range
  | |- 0 <= u16 _ < 65536 => apply u16_range
  | |- 0 <= Mem.read _ _ < 256 => apply Mem_read_range
  | |- 0 <= read _ < 256 => apply read_range
  | |- 0 <= Mem.read_word_le _ _ < 65536 => apply read_word_le_range
  | |- 0 <= Mem.zp_word _ _ < 65536 => apply zp_word_range
  | |- 0 <= Z.lor _ (Z.shiftl _ 8) < 65536 => apply word_of_bytes_range
  | |- 0 <= Status.setNegative ?v ?w < 256 => apply (value_setter_range v w)
  | |- 0 <= Status.setZero ?v ?w < 256 => apply (value_setter_range v w)
  | |- 0 <= Status.setCarry ?v ?w < 256 => apply (value_setter_range v w)
  | |- 0 <= Status.setNegativeB ?b ?w < 256 => apply (truth_setter_range b w)
  | |- 0 <= Status.setZeroB ?b ?w < 256 => apply (truth_setter_range b w)
  | |- 0 <= Status.setCarryB ?b ?w < 256 => apply (truth_setter_range b w)
  | |- 0 <= Status.setOverflow ?b ?w < 256 => apply (truth_setter_range b w)
  | |- 0 <= Status.setDecimal ?b ?w < 256 => apply (truth_setter_range b w)
  | |- 0 <= Status.setInterrupt ?b ?w < 256 => apply (truth_setter_range b w)
  | |- 0 <= a _ < 256 => apply wf_a
  | |- 0 <= x _ < 256 => apply wf_x
  | |- 0 <= y _ < 256 => apply wf_y
  | |- 0 <= s _ < 256 => apply wf_s
  | |- 0 <= p _ < 256 => apply wf_p
  | |- 0 <= pc _ < 65536 => apply wf_pc
  | |- 0 <= op _ < 65536 => apply wf_op
  | |- 0 <= fst (read_s_postinc _) < 256 => apply Mem_read_range
  | |- 0 <= Status.ofByte _ < 256 => apply u8_range
  | |- 0 <= Status.toByte _ < 256 => apply toByte_range
  | |- 0 <= Status.pulled _ _ < 256 => apply pulled_range
  | |- 0 <= Z.land 255 _ < 256 => rewrite Z.land_comm; apply land_byte; lia
  | H : wf ?c |- wf ?c => exact H
  | |- 0 <= _ < 65536 => apply byte_is_word
  end.

Ltac wf_solve :=
  repeat (cbn [fst snd Mem.abs Mem.abs_idx Mem.zpg Mem.zpg_idx Mem.indirect
               Mem.indexed Mem.indexed_x]; wf_step).

Lemma wf_resolve (m : AddrMode) (c : Cpu) : wf c -> wf (resolve m c).
Proof.
  intros H. destruct m; cbn [resolve];
    unfold IMP, ACC, REL, IMM, ZPG, ZPGX, ZPGY, ABS, ABSX, ABSY, IND, INDX, INDY;
    wf_solve.
Qed.

Lemma wf_operations (c : Cpu) : wf c -> Forall (fun f => wf (f c)) operations.
Proof.
  intros H. unfold operations.
  repeat match goal with
         | |- Forall _ (_ :: _) => apply Forall_cons
         | |- Forall _ [] => apply Forall_nil
         end.
  all: unfold ADC, SBC, ADC_arg, AND, ORA, EOR, BIT, ASL, LSR, INC, DEC, INX, INY,
    DEX, DEY, LDA, LDX, LDY, CMP, CPX, CPY, CMP_arg, BCC, BCS, BEQ, BNE, BMI,
    BPL, BVC, BVS, BRA, CLC, CLD, CLI, CLV, JSR, JMP, PHA, PHP, PLA, PLP, JAM, NOP;
    rewrite ?if_same; wf_solve.
Qed.

Lemma wf_operate (o : Operation) (c : Cpu) : wf c -> wf (operate o c).
Proof.
  intros H. pose proof (wf_operations c H) as F.
  rewrite Forall_forall in F.
  destruct o; cbn [operate]; try exact H; apply F; unfold operations;
    repeat (try (left; reflexivity); right).
Qed.

(** A machine about to execute the byte at [0x8000]. *)
Definition fresh (l : list (Z * Z)) : Cpu :=
  mkCpu 0x10 0x20 0x30 0xFD 0x00 0x8000 0x0000 (memCmd mIMP oNOP) (bus_of l).

Lemma wf_clock (getCommand : Z -> Command) (c : Cpu) :
  wf c -> wf (clock getCommand c).
Proof.
  intros H. unfold clock, execute. apply wf_operate. apply wf_resolve.
  repeat wf_step.
Qed.

(** ** Reading back what was written *)

Lemma p_write (d : Z) (c : Cpu) : p (write d c) = p c.
Proof. unfold write. destruct (isAcc (cmd c)); reflexivity. Qed.

Lemma u8_u8 (v : Z) : u8 (u8 v) = u8 v.
Proof. unfold u8. apply Z.mod_mod. lia. Qed.

Lemma read_write_same (d : Z) (c : Cpu) : read (write d c) = u8 d.
Proof.
  unfold read, write. destruct (isAcc (cmd c)) eqn:E.
  - cbn [cmd a with_a]. rewrite E. reflexivity.
  - cbn [cmd op bus with_bus]. rewrite E.
    unfold Mem.read, Mem.write. cbn [cells].
    rewrite Z.eqb_refl. apply u8_u8.
Qed.

Lemma write_effect (d : Z) (c : Cpu) :
  read (write d c) = u8 d /\
  x (write d c) = x c /\ y (write d c) = y c /\ s (write d c) = s c /\
  p (write d c) = p c /\ pc (write d c) = pc c /\ op (write d c) = op c /\
  (isAcc (cmd c) = true -> bus (write d c) = bus c) /\
  (isAcc (cmd c) = false ->
     a (write d c) = a c /\
     wlog (bus (write d c)) = wlog (bus c) ++ [(u16 (op c), u8 d)] /\
     forall k, k <> u16 (op c) -> cells (bus (write d c)) k = cells (bus c) k).
Proof.
  split; [apply read_write_same|].
  unfold write. destruct (isAcc (cmd c)); repeat split; try discriminate.
  intros k Hk. cbn [bus with_bus Mem.write cells].
  apply Z.eqb_neq in Hk. rewrite Hk. reflexivity.
Qed.

(** X2: [write] followed by [read] returns the byte written, whether the current
    command works on the accumulator or on the cell at [op].  On the
    accumulator the bus is not touched; on memory A is not touched, one
    write is issued and every other cell keeps its content.  X, Y, S, P, PC
    and [op] are never changed. *)
Theorem read_after_write (d : Z) (c : Cpu) :
  read (write d c) = u8 d /\
  x (write d c) = x c /\ y (write d c) = y c /\ s (write d c) = s c /\
  p (write d c) = p c /\ pc (write d c) = pc c /\ op (write d c) = op c /\
  (isAcc (cmd c) = true -> bus (write d c) = bus c) /\
  (isAcc (cmd c) = false ->
     a (write d c) = a c /\
     wlog (bus (write d c)) = wlog (bus c) ++ [(u16 (op c), u8 d)] /\
     forall k, k <> u16 (op c) -> cells (bus (write d c)) k = cells (bus c) k).
Proof. apply write_effect. Qed.

Lemma read_with_p (v : Z) (c : Cpu) : read (with_p v c) = read c.
Proof. reflexivity. Qed.

Ltac flags :=
  unfold Status.isCarry, Status.isZero, Status.isNegative, Status.isOverflow,
    Status.isDecimal, Status.isBreak, Status.isInterrupt,
    Status.setNegative, Status.setZero, Status.setCarry,
    Status.setNegativeB, Status.setZeroB, Status.setCarryB, Status.setOverflow,
    Status.setDecimal, Status.setInterrupt;
  repeat (rewrite testbit_setFlag by (vm_compute; discriminate));
  cbn [Status.bitC Status.bitZ Status.bitI Status.bitD Status.bitB Status.bitU
       Status.bitV Status.bitN Z.eqb Pos.eqb].

Ltac modlia := unfold u8, u16 in *; Z.div_mod_to_equations; lia.

(** Bit 7 of a byte is set when the byte is at least [0x80]. *)
Lemma testbit7_byte (v : Z) : 0 <= v < 256 -> Z.testbit v 7 = (127 <? v).
Proof.
  intros Hv. destruct (127 <? v) eqn:E.
  - apply Z.ltb_lt in E. apply Z.testbit_true; [lia|].
    change (2 ^ 7) with 128. Z.div_mod_to_equations. lia.
  - apply Z.ltb_ge in E. apply Z.testbit_false; [lia|].
    change (2 ^ 7) with 128. Z.div_mod_to_equations. lia.
Qed.

(** ** ASL *)

(** X3: ASL doubles the byte it reads (accumulator or memory, by the mode): the
    bit shifted out is the carry, so that [2 * v = result + 256 * C]; N is
    bit 7 of the result (bit 6 of the input) and Z tells whether the result
    is zero. *)
Theorem ASL_doubles (c : Cpu) (H : wf c) :
  let v := read c in
  read (ASL c) = (2 * v) mod 256 /\
  2 * v = read (ASL c) + 256 * Status.getCarry (p (ASL c)) /\
  Status.isCarry (p (ASL c)) = Z.testbit v 7 /\
  Status.isNegative (p (ASL c)) = Z.testbit v 6 /\
  Status.isZero (p (ASL c)) = ((2 * v) mod 256 =? 0).
Proof.
  intros v. pose proof (read_range c H) as Hv. fold v in Hv.
  unfold ASL. fold v. rewrite Z.shiftl_mul_pow2 by lia. change (2 ^ 1) with 2.
  rewrite (u16_small (v * 2)) by lia.
  rewrite read_write_same, p_write, u8_u8. cbn [p with_p].
  unfold Status.getCarry. flags. rewrite low_byte, (testbit7_byte v Hv).
  replace (v * 2) with (2 * v) by lia.
  assert (HN : Z.testbit ((2 * v) mod 256) 7 = Z.testbit v 6).
  { change 256 with (2 ^ 8). rewrite Z.mod_pow2_bits_low by lia.
    change 7 with (Z.succ 6). apply Z.double_bits_succ. }
  rewrite HN. unfold u8.
  assert (HC : (255 <? 2 * v) = (127 <? v)).
  { destruct (127 <? v) eqn:E; [apply Z.ltb_lt in E; apply Z.ltb_lt
                               | apply Z.ltb_ge in E; apply Z.ltb_ge]; lia. }
  rewrite HC. repeat split.
  destruct (127 <? v) eqn:E; [apply Z.ltb_lt in E | apply Z.ltb_ge in E];
    Z.div_mod_to_equations; lia.
Qed.

(** ASL A with [A = 0xC1]. *)
Definition asl_C1 : Cpu := with_cmd (accCmd oASL) (with_a 0xC1 (fresh [])).

Lemma ASL_doubles_witness :
  wf asl_C1 /\ a (ASL asl_C1) = 0x82 /\ Status.isCarry (p (ASL asl_C1)) = true.
Proof.
  assert (Hwf : wf asl_C1) by (constructor; vm_compute; split; congruence).
  split; [exact Hwf|].
  destruct (ASL_doubles asl_C1 Hwf) as (Hr & _ & HC & _).
  split; [exact Hr | exact HC].
Defined.

(** ** ADC and SBC as multi-byte arithmetic *)

Lemma ADC_arg_u8 (m : Z) (c : Cpu) : ADC_arg (u8 m) c = ADC_arg m c.
Proof. unfold ADC_arg. rewrite u8_u8. reflexivity. Qed.

Lemma getCarry_of (w : Z) (b : bool) :
  Status.isCarry w = b -> Status.getCarry w = if b then 1 else 0.
Proof. intros E. unfold Status.getCarry. rewrite E. reflexivity. Qed.

Lemma ADC_arg_total (m : Z) (c : Cpu) :
  wf c -> 0 <= m < 256 ->
  a (ADC_arg m c) + 256 * Status.getCarry (p (ADC_arg m c)) =
  a c + m + Status.getCarry (p c).
Proof.
  intros Hwf Hm.
  destruct (ADC_arg_effect m c Hwf Hm) as (Ha & HC & _).
  pose proof (getCarry_range (p c)) as Hc. pose proof (wf_a c Hwf) as Hac.
  rewrite Ha, (getCarry_of _ _ HC), testbit8_small by lia.
  destruct (255 <? a c + m + Status.getCarry (p c)) eqn:E;
    [apply Z.ltb_lt in E | apply Z.ltb_ge in E]; Z.div_mod_to_equations; lia.
Qed.

(** X4: ADC is exact 9-bit addition: the new accumulator and the new carry
    together hold [A + M + C], so carries chain across bytes.  X, Y, S, PC
    and the bus are left alone. *)
Theorem ADC_sum_conserved (c : Cpu) (H : wf c) :
  a (ADC c) + 256 * Status.getCarry (p (ADC c)) =
    a c + read c + Status.getCarry (p c) /\
  x (ADC c) = x c /\ y (ADC c) = y c /\ s (ADC c) = s c /\
  pc (ADC c) = pc c /\ bus (ADC c) = bus c.
Proof.
  split.
  - unfold ADC. apply ADC_arg_total; [exact H | apply read_range; exact H].
  - unfold ADC, ADC_arg. rewrite if_same. repeat split.
Qed.

(** [A = 0xF0] and the byte [0x25] at [op = 0x0040]. *)
Definition acc_F0_mem_25 : Cpu :=
  with_op 0x0040 (with_a 0xF0 (fresh [(0x0040, 0x25)])).

(** [A = 0x10] and the byte [0x25] at [op = 0x0040]. *)
Definition acc_10_mem_25 : Cpu :=
  with_op 0x0040 (with_a 0x10 (fresh [(0x0040, 0x25)])).

Lemma ADC_sum_conserved_witness :
  wf acc_F0_mem_25 /\
  a (ADC acc_F0_mem_25) + 256 * Status.getCarry (p (ADC acc_F0_mem_25)) = 0x115.
Proof.
  assert (Hwf : wf acc_F0_mem_25) by (constructor; vm_compute; split; congruence).
  split; [exact Hwf|].
  destruct (ADC_sum_conserved acc_F0_mem_25 Hwf) as (Hs & _).
  rewrite Hs. reflexivity.
Defined.

(** X5: SBC is subtraction with borrow: with [borrow = 1 - C] before and after,
    [A' - 256 * borrow' = A - M - borrow]. *)
Theorem SBC_difference (c : Cpu) (H : wf c) :
  a (SBC c) - 256 * (1 - Status.getCarry (p (SBC c))) =
  a c - read c - (1 - Status.getCarry (p c)).
Proof.
  pose proof (read_range c H) as Hv.
  unfold SBC. rewrite <- ADC_arg_u8.
  assert (E : u8 (Z.lnot (read c)) = 255 - read c).
  { unfold Z.lnot. modlia. }
  rewrite E.
  pose proof (ADC_arg_total (255 - read c) c H) as T. lia.
Qed.

Lemma SBC_difference_witness :
  wf acc_10_mem_25 /\
  a (SBC acc_10_mem_25) - 256 * (1 - Status.getCarry (p (SBC acc_10_mem_25))) =
  0x10 - 0x25 - 1.
Proof.
  assert (Hwf : wf acc_10_mem_25) by (constructor; vm_compute; split; congruence).
  split; [exact Hwf|].
  rewrite (SBC_difference acc_10_mem_25 Hwf). reflexivity.
Defined.

(** ** AND, ORA, EOR, BIT *)

Lemma byte_low (v : Z) : 0 <= v < 256 -> Z.land v 255 = v.
Proof. intros Hv. rewrite low_byte. apply Z.mod_small. exact Hv. Qed.

(** What a logic operation leaves: the accumulator [r], N and Z from [r],
    and everything else (C, V, D, I, B, X, Y, S, PC, the bus) as it was. *)
Definition logic_result (r : Z) (c c' : Cpu) : Prop :=
  a c' = r /\
  Status.isNegative (p c') = Z.testbit r 7 /\
  Status.isZero (p c') = (r =? 0) /\
  Status.isCarry (p c') = Status.isCarry (p c) /\
  Status.isOverflow (p c') = Status.isOverflow (p c) /\
  x c' = x c /\ y c' = y c /\ s c' = s c /\ pc c' = pc c /\ bus c' = bus c.

Lemma logic_results (c : Cpu) :
  wf c ->
  logic_result (Z.land (a c) (read c)) c (AND c) /\
  logic_result (Z.lor (a c) (read c)) c (ORA c) /\
  logic_result (Z.lxor (a c) (read c)) c (EOR c).
Proof.
  intros H.
  pose proof (wf_a c H) as Ha. pose proof (read_range c H) as Hr.
  pose proof (land_byte (a c) (read c) Hr) as H1.
  pose proof (lor_byte (a c) (read c) Ha Hr) as H2.
  pose proof (lxor_byte (a c) (read c) Ha Hr) as H3.
  unfold logic_result, AND, ORA, EOR.
  rewrite (u8_small _ H1), (u8_small _ H2), (u8_small _ H3).
  cbn [a x y s p pc bus with_a with_p]. flags.
  rewrite (byte_low _ H1), (byte_low _ H2), (byte_low _ H3).
  repeat split.
Qed.

(** X6: AND, ORA and EOR combine A with the byte read, bit by bit, set N and Z
    from the result and touch neither C nor V, nor any other register, nor
    memory. *)
Theorem logic_ops (c : Cpu) (H : wf c) :
  logic_result (Z.land (a c) (read c)) c (AND c) /\
  logic_result (Z.lor (a c) (read c)) c (ORA c) /\
  logic_result (Z.lxor (a c) (read c)) c (EOR c).
Proof. apply logic_results. exact H. Qed.

(** [A = 0xF0] and the byte [0x3C] at [op = 0x0040]. *)
Definition acc_F0_mem_3C : Cpu :=
  with_op 0x0040 (with_a 0xF0 (fresh [(0x0040, 0x3C)])).

Lemma logic_ops_witness :
  wf acc_F0_mem_3C /\
  a (AND acc_F0_mem_3C) = 0x30 /\ a (ORA acc_F0_mem_3C) = 0xFC /\
  a (EOR acc_F0_mem_3C) = 0xCC.
Proof.
  assert (Hwf : wf acc_F0_mem_3C) by (constructor; vm_compute; split; congruence).
  split; [exact Hwf|].
  destruct (logic_ops acc_F0_mem_3C Hwf) as ((E1 & _) & (E2 & _) & (E3 & _)).
  rewrite E1, E2, E3. repeat split.
Defined.

(** X7: EOR with the same memory operand twice gives the accumulator back, and
    N and Z then describe that value. *)
Theorem EOR_twice (c : Cpu) (H : wf c) (Hmem : isAcc (cmd c) = false) :
  a (EOR (EOR c)) = a c /\
  Status.isNegative (p (EOR (EOR c))) = Z.testbit (a c) 7 /\
  Status.isZero (p (EOR (EOR c))) = (a c =? 0).
Proof.
  assert (Hwf' : wf (EOR c)).
  { pose proof (wf_operations c H) as F. rewrite Forall_forall in F.
    apply F. unfold operations. repeat (try (left; reflexivity); right). }
  destruct (logic_results c H) as (_ & _ & (E1 & _ & _ & _ & _ & _ & _ & _ & _ & Eb)).
  destruct (logic_results (EOR c) Hwf') as (_ & _ & (E2 & EN & EZ & _)).
  assert (Er : read (EOR c) = read c).
  { unfold read. replace (cmd (EOR c)) with (cmd c) by reflexivity.
    rewrite Hmem, Eb. reflexivity. }
  rewrite Er, E1 in E2.
  rewrite Z.lxor_assoc, Z.lxor_nilpotent, Z.lxor_0_r in E2.
  rewrite Er, E1, Z.lxor_assoc, Z.lxor_nilpotent, Z.lxor_0_r in EN, EZ.
  repeat split; assumption.
Qed.

Lemma EOR_twice_witness :
  wf acc_F0_mem_3C /\ a (EOR (EOR acc_F0_mem_3C)) = 0xF0.
Proof.
  assert (Hwf : wf acc_F0_mem_3C) by (constructor; vm_compute; split; congruence).
  split; [exact Hwf|].
  destruct (EOR_twice acc_F0_mem_3C Hwf eq_refl) as (E & _).
  rewrite E. reflexivity.
Defined.

(** Testing one bit with a mask. *)
Lemma mask_test (v k : Z) :
  0 <= k -> negb (Z.land v (2 ^ k) =? 0) = Z.testbit v k.
Proof.
  intros Hk. destruct (Z.testbit v k) eqn:E.
  - apply negb_true_iff. apply Z.eqb_neq. intros Hz.
    assert (T : Z.testbit (Z.land v (2 ^ k)) k = true)
      by (rewrite Z.land_spec, E, Z.pow2_bits_true by exact Hk; reflexivity).
    rewrite Hz, Z.bits_0 in T. discriminate T.
  - apply negb_false_iff. apply Z.eqb_eq. apply Z.bits_inj'. intros i Hi.
    rewrite Z.land_spec, Z.bits_0, Z.pow2_bits_eqb by exact Hk.
    destruct (k =? i) eqn:K.
    + apply Z.eqb_eq in K. subst i. rewrite E. reflexivity.
    + apply andb_false_r.
Qed.

(** X8: BIT copies bits 7 and 6 of the byte read into N and V, sets Z when
    [A & M] is zero, and changes neither A, nor C, nor memory. *)
Theorem BIT_effect (c : Cpu) (H : wf c) :
  let M := read c in
  Status.isNegative (p (BIT c)) = Z.testbit M 7 /\
  Status.isOverflow (p (BIT c)) = Z.testbit M 6 /\
  Status.isZero (p (BIT c)) = (Z.land M (a c) =? 0) /\
  Status.isCarry (p (BIT c)) = Status.isCarry (p c) /\
  a (BIT c) = a c /\ x (BIT c) = x c /\ y (BIT c) = y c /\
  s (BIT c) = s c /\ pc (BIT c) = pc c /\ bus (BIT c) = bus c.
Proof.
  intros M. pose proof (wf_a c H) as Ha.
  pose proof (land_byte M (a c) Ha) as HL.
  unfold BIT. fold M. cbn [a x y s p pc bus with_p]. flags.
  change 128 with (2 ^ 7). change 64 with (2 ^ 6).
  rewrite !mask_test by lia. rewrite (byte_low _ HL). repeat split.
Qed.

(** [A = 0x0F] and the byte [0xC0] at [op = 0x0040]. *)
Definition acc_0F_mem_C0 : Cpu :=
  with_op 0x0040 (with_a 0x0F (fresh [(0x0040, 0xC0)])).

Lemma BIT_effect_witness :
  wf acc_0F_mem_C0 /\
  Status.isNegative (p (BIT acc_0F_mem_C0)) = true /\
  Status.isOverflow (p (BIT acc_0F_mem_C0)) = true /\
  Status.isZero (p (BIT acc_0F_mem_C0)) = true.
Proof.
  assert (Hwf : wf acc_0F_mem_C0) by (constructor; vm_compute; split; congruence).
  split; [exact Hwf|].
  destruct (BIT_effect acc_0F_mem_C0 Hwf) as (EN & EV & EZ & _).
  rewrite EN, EV, EZ. repeat split.
Defined.

(** ** CLC, CLD, CLI, CLV *)

(** The flag at position [bit] is clear in [c'], and [c'] differs from [c]
    in nothing else. *)
Definition clears (bit : Z) (c c' : Cpu) : Prop :=
  Z.testbit (p c') bit = false /\
  (forall k, k <> bit -> Z.testbit (p c') k = Z.testbit (p c) k) /\
  a c' = a c /\ x c' = x c /\ y c' = y c /\ s c' = s c /\
  pc c' = pc c /\ op c' = op c /\ bus c' = bus c.

Lemma setFlag_false_clears (bit : Z) (c : Cpu) :
  0 <= bit -> clears bit c (with_p (Status.setFlag bit false (p c)) c).
Proof.
  intros Hb. unfold clears. cbn [a x y s p pc op bus with_p].
  split; [|split; [|repeat split]].
  - rewrite testbit_setFlag by exact Hb. rewrite Z.eqb_refl. reflexivity.
  - intros k Hk. rewrite testbit_setFlag by exact Hb.
    destruct (bit =? k) eqn:E; [apply Z.eqb_eq in E; congruence | reflexivity].
Qed.

(** X9: CLC, CLD, CLI and CLV clear the carry, decimal, interrupt-disable and
    overflow flag and change no other bit of P, no register and no memory
    cell. *)
Theorem clear_flag_ops (c : Cpu) :
  clears Status.bitC c (CLC c) /\ clears Status.bitD c (CLD c) /\
  clears Status.bitI c (CLI c) /\ clears Status.bitV c (CLV c).
Proof.
  repeat split; apply setFlag_false_clears; vm_compute; discriminate.
Qed.

(** ** INC, DEC and the index registers *)

Lemma read_INC (c : Cpu) : read (INC c) = u8 (read c + 1).
Proof. unfold INC. rewrite read_write_same. apply u8_u8. Qed.

Lemma read_DEC (c : Cpu) : read (DEC c) = u8 (read c - 1).
Proof. unfold DEC. apply read_write_same. Qed.

Lemma flags_INC (c : Cpu) :
  Status.isZero (p (INC c)) = (u8 (read c + 1) =? 0) /\
  Status.isNegative (p (INC c)) = Z.testbit (u8 (read c + 1)) 7.
Proof.
  unfold INC. rewrite p_write. cbn [p with_p]. flags.
  rewrite (byte_low _ (u8_range (read c + 1))). split; reflexivity.
Qed.

Lemma flags_DEC (c : Cpu) :
  Status.isZero (p (DEC c)) = (u8 (read c - 1) =? 0) /\
  Status.isNegative (p (DEC c)) = Z.testbit (u8 (read c - 1)) 7.
Proof.
  unfold DEC. rewrite p_write. cbn [p with_p]. flags.
  rewrite low_byte. split; reflexivity.
Qed.

(** X10: INC and DEC undo each other on the byte they work on (a memory cell or,
    for an accumulator command, A), wrapping between [0xFF] and [0x00]; the
    N and Z flags follow the byte written: INC of [0xFF] gives [0x00] with
    Z set, DEC of [0x00] gives [0xFF] with N set. *)
Theorem INC_DEC_inverse (c : Cpu) (H : wf c) :
  read (DEC (INC c)) = read c /\
  read (INC (DEC c)) = read c /\
  (read c = 0xFF -> read (INC c) = 0x00 /\ Status.isZero (p (INC c)) = true) /\
  (read c = 0x00 -> read (DEC c) = 0xFF /\ Status.isNegative (p (DEC c)) = true).
Proof.
  pose proof (read_range c H) as Hr.
  destruct (flags_INC c) as (ZI & _). destruct (flags_DEC c) as (_ & ND).
  split; [|split; [|split]].
  - rewrite read_DEC, read_INC. modlia.
  - rewrite read_INC, read_DEC. modlia.
  - intros E. rewrite read_INC, ZI, E. split; reflexivity.
  - intros E. rewrite read_DEC, ND, E. split; reflexivity.
Qed.

(** The byte [0xFF] at [op = 0x0040]. *)
Definition mem_FF : Cpu := with_op 0x0040 (fresh [(0x0040, 0xFF)]).

Lemma INC_DEC_inverse_witness :
  wf mem_FF /\ read (DEC (INC mem_FF)) = 0xFF /\
  read (INC mem_FF) = 0x00 /\ Status.isZero (p (INC mem_FF)) = true.
Proof.
  assert (Hwf : wf mem_FF) by (constructor; vm_compute; split; congruence).
  split; [exact Hwf|].
  destruct (INC_DEC_inverse mem_FF Hwf) as (E1 & _ & E3 & _).
  destruct (E3 eq_refl) as (E4 & E5).
  rewrite E1, E4, E5. repeat split.
Defined.

(** The state [c'] has the index register [r] of [c] again, with Z and N
    describing it, and the same other index register [r'], A, S, PC, [op]
    and bus as [c]. *)
Definition index_restored (r r' : Cpu -> Z) (c c' : Cpu) : Prop :=
  r c' = r c /\
  Status.isZero (p c') = (r c =? 0) /\
  Status.isNegative (p c') = Z.testbit (r c) 7 /\
  r' c' = r' c /\ a c' = a c /\ s c' = s c /\ pc c' = pc c /\
  op c' = op c /\ bus c' = bus c.

(** X11: INX and DEX, INY and DEY undo each other modulo 256, in either
    order; after the pair Z and N describe the register again, and the other
    index register, A, S, PC, [op] and memory are as before. *)
Theorem index_inc_dec_inverse (c : Cpu) (H : wf c) :
  index_restored x y c (DEX (INX c)) /\
  index_restored x y c (INX (DEX c)) /\
  index_restored y x c (DEY (INY c)) /\
  index_restored y x c (INY (DEY c)).
Proof.
  pose proof (wf_x c H) as Hx. pose proof (wf_y c H) as Hy.
  assert (Ex : u8 (u8 (x c + 1) - 1) = x c) by modlia.
  assert (Ex' : u8 (u8 (x c - 1) + 1) = x c) by modlia.
  assert (Ey : u8 (u8 (y c + 1) - 1) = y c) by modlia.
  assert (Ey' : u8 (u8 (y c - 1) + 1) = y c) by modlia.
  unfold index_restored, DEX, INX, DEY, INY.
  cbn [a x y s p pc op bus with_x with_y with_p].
  flags. rewrite Ex, Ex', Ey, Ey', (byte_low _ Hx), (byte_low _ Hy).
  repeat split.
Qed.

(** [X = 0xFF], [Y = 0x00]. *)
Definition idx_FF_00 : Cpu := with_y 0x00 (with_x 0xFF (fresh [])).

Lemma index_inc_dec_inverse_witness :
  wf idx_FF_00 /\ x (INX idx_FF_00) = 0x00 /\ x (DEX (INX idx_FF_00)) = 0xFF /\
  y (DEY idx_FF_00) = 0xFF /\ y (INY (DEY idx_FF_00)) = 0x00 /\
  Status.isZero (p (INY (DEY idx_FF_00))) = true.
Proof.
  assert (Hwf : wf idx_FF_00) by (constructor; vm_compute; split; congruence).
  split; [exact Hwf|].
  destruct (index_inc_dec_inverse idx_FF_00 Hwf)
    as ((E1 & _) & _ & _ & (E2 & EZ & _)).
  rewrite E1, E2, EZ. repeat split.
Defined.

(** ** LDA, LDX, LDY *)

(** What a load leaves in P and outside the loaded register. *)
Definition load_result (v : Z) (c c' : Cpu) : Prop :=
  Status.isNegative (p c') = Z.testbit v 7 /\
  Status.isZero (p c') = (v =? 0) /\
  Status.isCarry (p c') = Status.isCarry (p c) /\
  Status.isOverflow (p c') = Status.isOverflow (p c) /\
  s c' = s c /\ pc c' = pc c /\ bus c' = bus c.

Lemma load_results (c : Cpu) :
  wf c ->
  (a (LDA c) = read c /\ x (LDA c) = x c /\ y (LDA c) = y c /\
   load_result (read c) c (LDA c)) /\
  (x (LDX c) = read c /\ a (LDX c) = a c /\ y (LDX c) = y c /\
   load_result (read c) c (LDX c)) /\
  (y (LDY c) = read c /\ a (LDY c) = a c /\ x (LDY c) = x c /\
   load_result (read c) c (LDY c)).
Proof.
  intros H. pose proof (read_range c H) as Hr.
  unfold load_result, LDA, LDX, LDY.
  cbn [a x y s p pc bus with_a with_x with_y with_p]. flags.
  rewrite (byte_low _ Hr). repeat split.
Qed.

(** X12: LDA, LDX and LDY copy the byte read into A, X or Y, set N to its bit 7
    and Z to whether it is zero, and leave the two other registers, C, V, S,
    PC and memory alone. *)
Theorem load_ops (c : Cpu) (H : wf c) :
  (a (LDA c) = read c /\ x (LDA c) = x c /\ y (LDA c) = y c /\
   load_result (read c) c (LDA c)) /\
  (x (LDX c) = read c /\ a (LDX c) = a c /\ y (LDX c) = y c /\
   load_result (read c) c (LDX c)) /\
  (y (LDY c) = read c /\ a (LDY c) = a c /\ x (LDY c) = x c /\
   load_result (read c) c (LDY c)).
Proof. apply load_results. exact H. Qed.

(** The byte [0x80] at [op = 0x0040]. *)
Definition mem_80 : Cpu := with_op 0x0040 (fresh [(0x0040, 0x80)]).

Lemma load_ops_witness :
  wf mem_80 /\ a (LDA mem_80) = 0x80 /\
  Status.isNegative (p (LDA mem_80)) = true /\
  Status.isZero (p (LDA mem_80)) = false.
Proof.
  assert (Hwf : wf mem_80) by (constructor; vm_compute; split; congruence).
  split; [exact Hwf|].
  destruct (load_ops mem_80 Hwf) as ((E1 & _ & _ & EN & EZ & _) & _).
  rewrite E1, EN, EZ. repeat split.
Defined.

(** ** Branches *)

Lemma u16_add_l (v w : Z) : u16 (u16 v + w) = u16 (v + w).
Proof. unfold u16. apply Zplus_mod_idemp_l. Qed.

(** The state after a relative branch instruction whose operand byte is at
    the PC of [c]: PC is past the operand, plus the signed offset when the
    branch is taken; nothing else but [op] has changed. *)
Definition branched (taken : bool) (c c' : Cpu) : Prop :=
  let off := i8 (Mem.read (bus c) (pc c)) in
  pc c' = (if taken then u16 (pc c + 1 + off) else u16 (pc c + 1)) /\
  a c' = a c /\ x c' = x c /\ y c' = y c /\ s c' = s c /\ p c' = p c /\
  bus c' = bus c.

Lemma BRA_REL (c : Cpu) :
  wf c -> isAcc (cmd c) = false -> branched true c (BRA (REL c)).
Proof.
  intros H Hmem. unfold branched, BRA, REL, IMM, read.
  cbn [a x y s p pc op cmd bus with_pc with_op]. rewrite Hmem.
  rewrite u16_add_l. repeat split.
Qed.

Lemma not_branched (c : Cpu) : branched false c (REL c).
Proof. unfold branched, REL, IMM. repeat split. Qed.

Lemma branch_if (b : bool) (c : Cpu) :
  wf c -> isAcc (cmd c) = false ->
  branched b c (if b then BRA (REL c) else REL c).
Proof.
  intros H Hmem. destruct b; [apply BRA_REL; assumption | apply not_branched].
Qed.

(** X13: the eight conditional branches, run after the relative resolver: each
    tests one flag (BCC/BCS the carry, BNE/BEQ zero, BPL/BMI negative,
    BVC/BVS overflow) and, when it holds, moves PC by the operand byte read
    as a signed number in -128..127, counted from the byte after the
    operand and wrapping at 16 bits; otherwise PC is just past the operand.
    No register, flag or memory cell changes. *)
Theorem relative_branches (c : Cpu) (H : wf c) (Hmem : isAcc (cmd c) = false) :
  branched (negb (Status.isCarry (p c))) c (BCC (REL c)) /\
  branched (Status.isCarry (p c)) c (BCS (REL c)) /\
  branched (negb (Status.isZero (p c))) c (BNE (REL c)) /\
  branched (Status.isZero (p c)) c (BEQ (REL c)) /\
  branched (negb (Status.isNegative (p c))) c (BPL (REL c)) /\
  branched (Status.isNegative (p c)) c (BMI (REL c)) /\
  branched (negb (Status.isOverflow (p c))) c (BVC (REL c)) /\
  branched (Status.isOverflow (p c)) c (BVS (REL c)) /\
  -128 <= i8 (Mem.read (bus c) (pc c)) < 128.
Proof.
  unfold BCC, BCS, BNE, BEQ, BPL, BMI, BVC, BVS.
  replace (p (REL c)) with (p c) by reflexivity.
  repeat split; try (apply branch_if; assumption); apply i8_range.
Qed.

(** BNE [+4] and BNE [-4] with the operand byte at [0x01FE], Z clear. *)
Definition bne_fwd : Cpu := with_pc 0x01FE (fresh [(0x01FE, 0x04)]).
Definition bne_back : Cpu := with_pc 0x01FE (fresh [(0x01FE, 0xFC)]).

Lemma relative_branches_witness :
  wf bne_fwd /\ pc (BNE (REL bne_fwd)) = 0x0203 /\
  pc (BEQ (REL bne_fwd)) = 0x01FF.
Proof.
  assert (Hwf : wf bne_fwd) by (constructor; vm_compute; split; congruence).
  split; [exact Hwf|].
  destruct (relative_branches bne_fwd Hwf eq_refl)
    as (_ & _ & (E1 & _) & (E2 & _) & _).
  rewrite E1, E2. split; reflexivity.
Defined.

Example BNE_backwards : pc (BNE (REL bne_back)) = 0x01FB.
Proof. reflexivity. Qed.

(** ** Compare, then branch *)

(** X14: after CMP, a following branch (its own operand resolved by REL) is taken
    as the unsigned comparison of A with the byte compared says: BEQ when
    [A = M], BNE when they differ, BCS when [A >= M], BCC when [A < M]. *)
Theorem CMP_then_branch (c : Cpu) (H : wf c) :
  let M := read c in
  let c' := REL (CMP c) in
  BEQ c' = (if a c =? M then BRA c' else c') /\
  BNE c' = (if a c =? M then c' else BRA c') /\
  BCS c' = (if M <=? a c then BRA c' else c') /\
  BCC c' = (if M <=? a c then c' else BRA c').
Proof.
  intros M c'.
  destruct (CMP_arg_effect (a c) c (wf_a c H)) as (HC & HZ & _).
  fold (CMP c) in HC, HZ. fold M in HC, HZ.
  unfold BEQ, BNE, BCS, BCC.
  replace (p c') with (p (CMP c)) by reflexivity.
  rewrite HC, HZ. destruct (a c =? M), (M <=? a c); repeat split.
Qed.

(** [A = 0x40] compared with the byte [0x41] at [op = 0x0040]; the branch
    operand [0x10] is at PC. *)
Definition cmp_lt : Cpu :=
  with_op 0x0040 (with_a 0x40 (fresh [(0x0040, 0x41); (0x8000, 0x10)])).

Lemma CMP_then_branch_witness :
  wf cmp_lt /\ pc (BCC (REL (CMP cmp_lt))) = 0x8011 /\
  pc (BCS (REL (CMP cmp_lt))) = 0x8001 /\ pc (BEQ (REL (CMP cmp_lt))) = 0x8001.
Proof.
  assert (Hwf : wf cmp_lt) by (constructor; vm_compute; split; congruence).
  split; [exact Hwf|].
  destruct (CMP_then_branch cmp_lt Hwf) as (E1 & _ & E3 & E4).
  rewrite E1, E3, E4. repeat split.
Defined.

(** X15: after a load, BEQ is taken exactly when the byte loaded is zero and BMI
    exactly when it is [0x80] or more. *)
Theorem load_then_branch (c : Cpu) (H : wf c) :
  let M := read c in
  let c' := REL (LDA c) in
  BEQ c' = (if M =? 0 then BRA c' else c') /\
  BNE c' = (if M =? 0 then c' else BRA c') /\
  BMI c' = (if 127 <? M then BRA c' else c') /\
  BPL c' = (if 127 <? M then c' else BRA c').
Proof.
  intros M c'.
  destruct (load_results c H) as ((_ & _ & _ & HN & HZ & _) & _).
  fold M in HN, HZ. rewrite (testbit7_byte M (read_range c H)) in HN.
  unfold BEQ, BNE, BMI, BPL.
  replace (p c') with (p (LDA c)) by reflexivity.
  rewrite HN, HZ. destruct (M =? 0), (127 <? M); repeat split.
Qed.

Lemma load_then_branch_witness :
  wf mem_80 /\ BMI (REL (LDA mem_80)) = BRA (REL (LDA mem_80)) /\
  BEQ (REL (LDA mem_80)) = REL (LDA mem_80).
Proof.
  assert (Hwf : wf mem_80) by (constructor; vm_compute; split; congruence).
  split; [exact Hwf|].
  destruct (load_then_branch mem_80 Hwf) as (E1 & _ & E3 & _).
  rewrite E1, E3. split; reflexivity.
Defined.

(** ** What compare and stack operations leave alone *)

(** X16: CMP, CPX and CPY write the N, Z and C flags only: the other bits of P,
    every register, [op] and memory are as before. *)
Theorem compare_frame (c : Cpu) :
  Forall (fun f =>
    (forall k, k <> Status.bitN -> k <> Status.bitZ -> k <> Status.bitC ->
       Z.testbit (p (f c)) k = Z.testbit (p c) k) /\
    a (f c) = a c /\ x (f c) = x c /\ y (f c) = y c /\ s (f c) = s c /\
    pc (f c) = pc c /\ op (f c) = op c /\ bus (f c) = bus c)
  [CMP; CPX; CPY].
Proof.
  assert (G : forall reg,
    (forall k, k <> Status.bitN -> k <> Status.bitZ -> k <> Status.bitC ->
       Z.testbit (p (CMP_arg reg c)) k = Z.testbit (p c) k) /\
    a (CMP_arg reg c) = a c /\ x (CMP_arg reg c) = x c /\
    y (CMP_arg reg c) = y c /\ s (CMP_arg reg c) = s c /\
    pc (CMP_arg reg c) = pc c /\ op (CMP_arg reg c) = op c /\
    bus (CMP_arg reg c) = bus c).
  { intros reg. split; [|repeat split].
    intros k HN HZ HC. unfold CMP_arg. cbn [p with_p].
    unfold Status.setNegativeB, Status.setZeroB, Status.setCarryB.
    rewrite !testbit_setFlag by (vm_compute; discriminate).
    apply not_eq_sym, Z.eqb_neq in HN, HZ, HC.
    rewrite HN, HZ, HC. reflexivity. }
  repeat apply Forall_cons; try apply Forall_nil; apply G.
Qed.

(** X17: a push writes one cell, the one at the address S, and moves S: every
    other cell, A, X, Y, P, PC and [op] are as before.  A pull issues no
    write and leaves X, Y and PC alone; PLA changes no flag other than N
    and Z. *)
Theorem stack_frame (c : Cpu) (H : wf c) :
  (forall f, In f [PHA; PHP] ->
     (forall k, k <> s c -> cells (bus (f c)) k = cells (bus c) k) /\
     a (f c) = a c /\ x (f c) = x c /\ y (f c) = y c /\ p (f c) = p c /\
     pc (f c) = pc c /\ op (f c) = op c) /\
  (forall f, In f [PLA; PLP] ->
     bus (f c) = bus c /\ x (f c) = x c /\ y (f c) = y c /\ pc (f c) = pc c) /\
  (forall k, k <> Status.bitN -> k <> Status.bitZ ->
     Z.testbit (p (PLA c)) k = Z.testbit (p c) k).
Proof.
  pose proof (wf_s c H) as Hs.
  split; [|split].
  - assert (G : forall v,
      (forall k, k <> s c ->
         cells (bus (write_s_postinc v c)) k = cells (bus c) k) /\
      a (write_s_postinc v c) = a c /\ x (write_s_postinc v c) = x c /\
      y (write_s_postinc v c) = y c /\ p (write_s_postinc v c) = p c /\
      pc (write_s_postinc v c) = pc c /\ op (write_s_postinc v c) = op c).
    { intros v. split; [|repeat split]. intros k Hk.
      unfold write_s_postinc, Mem.write. cbn [s bus cells with_s with_bus].
      rewrite (u16_small (s c)) by lia.
      apply Z.eqb_neq in Hk. rewrite Hk. reflexivity. }
    intros f [<- | [<- | []]]; apply G.
  - intros f [<- | [<- | []]]; repeat split.
  - intros k HN HZ. unfold PLA. cbn [p with_p].
    unfold Status.setNegative, Status.setZero.
    rewrite !testbit_setFlag by (vm_compute; discriminate).
    apply not_eq_sym, Z.eqb_neq in HN, HZ. rewrite HN, HZ. reflexivity.
Qed.

(** [A = 0x5A], [S = 0xFD], and the byte [0x77] at [0x0040]. *)
Definition push_5A : Cpu := with_a 0x5A (fresh [(0x0040, 0x77)]).

Lemma stack_frame_witness :
  wf push_5A /\ cells (bus (PHA push_5A)) 0x0040 = 0x77 /\
  bus (PLA push_5A) = bus push_5A.
Proof.
  assert (Hwf : wf push_5A) by (constructor; vm_compute; split; congruence).
  split; [exact Hwf|].
  destruct (stack_frame push_5A Hwf) as (Hpush & Hpull & _).
  destruct (Hpush PHA (or_introl eq_refl)) as (Hcells & _).
  destruct (Hpull PLA (or_introl eq_refl)) as (Hbus & _).
  split; [|exact Hbus].
  rewrite Hcells; [reflexivity | vm_compute; discriminate].
Defined.

(** ** Fetching an instruction *)

Lemma resolve_advances_pc_lemma (m : AddrMode) (c : Cpu) :
  wf c -> pc (resolve m c) = u16 (pc c + operand_len m).
Proof.
  intros H. pose proof (wf_pc c H) as Hpc.
  destruct m; cbn [resolve operand_len];
    unfold IMP, ACC, REL, IMM, ZPG, ZPGX, ZPGY, ABS, ABSX, ABSY, IND, INDX,
      INDY, set_op_pc;
    cbn [pc with_pc with_op fst snd Mem.abs Mem.abs_idx Mem.zpg Mem.zpg_idx
         Mem.indirect Mem.indexed Mem.indexed_x];
    try reflexivity; rewrite Z.add_0_r; symmetry; apply u16_small; exact Hpc.
Qed.

(** X18: each resolver moves PC past the operand bytes of its mode: none for
    implied and accumulator, one for immediate, zero page (plain and
    indexed), the two indirect indexed modes and relative, two for absolute
    (plain and indexed) and indirect; PC wraps at 16 bits. *)
Theorem resolve_advances_pc (m : AddrMode) (c : Cpu) (H : wf c) :
  pc (resolve m c) = u16 (pc c + operand_len m).
Proof. apply resolve_advances_pc_lemma. exact H. Qed.


(** A machine whose PC is on the last byte of the address space. *)
Definition at_FFFF : Cpu := with_pc 0xFFFF (fresh []).

Lemma resolve_advances_pc_witness :
  wf at_FFFF /\ pc (resolve mABS at_FFFF) = 0x0001.
Proof.
  assert (Hwf : wf at_FFFF) by (constructor; vm_compute; split; congruence).
  split; [exact Hwf|].
  rewrite (resolve_advances_pc mABS at_FFFF Hwf). reflexivity.
Defined.


Lemma resolve_keeps (m : AddrMode) (c : Cpu) :
  a (resolve m c) = a c /\ x (resolve m c) = x c /\ y (resolve m c) = y c /\
  s (resolve m c) = s c /\ p (resolve m c) = p c /\ bus (resolve m c) = bus c.
Proof. destruct m; repeat split. Qed.

(** ** Read-modify-write operations *)

(** What a read-modify-write operation does besides computing its result:
    on an accumulator command the bus is untouched; on a memory command A is
    untouched and exactly one write is issued, of the new byte (the one a
    following [read] returns) at the address [op], every other cell keeping
    its content.  X, Y, S, PC and [op] never change. *)
Definition modifies_operand (c c' : Cpu) : Prop :=
  x c' = x c /\ y c' = y c /\ s c' = s c /\ pc c' = pc c /\ op c' = op c /\
  (isAcc (cmd c) = true -> bus c' = bus c) /\
  (isAcc (cmd c) = false ->
     a c' = a c /\
     wlog (bus c') = wlog (bus c) ++ [(u16 (op c), read c')] /\
     forall k, k <> u16 (op c) -> cells (bus c') k = cells (bus c) k).

Lemma write_modifies_operand (d v : Z) (c : Cpu) :
  modifies_operand c (write d (with_p v c)).
Proof.
  set (c' := with_p v c).
  destruct (write_effect d c') as (Er & Ex & Ey & Es & _ & Epc & Eop & Hacc & Hmem).
  unfold modifies_operand. rewrite Er, Ex, Ey, Es, Epc, Eop.
  do 5 (split; [reflexivity|]). split.
  - intros E. rewrite (Hacc E). reflexivity.
  - intros E. destruct (Hmem E) as (Ea & Ew & Ec).
    rewrite Ea, Ew. split; [reflexivity|]. split; [reflexivity|].
    intros k Hk. rewrite (Ec k Hk). reflexivity.
Qed.

(** X20: ASL, LSR, INC and DEC work on A for an accumulator command and on the
    cell at [op] otherwise: in the first case they never write memory, in
    the second they never change A and issue exactly one write, at [op]. *)
Theorem read_modify_write (c : Cpu) :
  Forall (fun f => modifies_operand c (f c)) [ASL; LSR; INC; DEC].
Proof.
  repeat apply Forall_cons; try apply Forall_nil;
    unfold ASL, LSR, INC, DEC;
    match goal with
    | |- modifies_operand _ (write ?d (with_p ?v _)) =>
        exact (write_modifies_operand d v c)
    end.
Qed.

(** The value left by LSR, whatever the mode. *)
Lemma read_LSR (c : Cpu) : read (LSR c) = u8 (Z.shiftr (read c) 1).
Proof. unfold LSR. rewrite read_write_same. apply u8_u8. Qed.

Lemma read_ASL (c : Cpu) : read (ASL c) = u8 (2 * read c).
Proof.
  unfold ASL. rewrite read_write_same, u8_u8.
  rewrite Z.shiftl_mul_pow2 by lia. change (2 ^ 1) with 2. modlia.
Qed.

(** X21: shifting left then right loses bit 7 only; shifting right then left
    loses bit 0 only. *)
Theorem shift_there_and_back (c : Cpu) (H : wf c) :
  read (LSR (ASL c)) = read c mod 128 /\
  read (ASL (LSR c)) = read c - read c mod 2.
Proof.
  pose proof (read_range c H) as Hr.
  rewrite read_LSR, read_ASL, read_ASL, read_LSR.
  rewrite !Z.shiftr_div_pow2 by lia. change (2 ^ 1) with 2.
  split; modlia.
Qed.

(** ASL A then LSR A on [A = 0xC1]. *)
Lemma shift_there_and_back_witness :
  wf asl_C1 /\ a (LSR (ASL asl_C1)) = 0x41 /\ a (ASL (LSR asl_C1)) = 0xC0.
Proof.
  assert (Hwf : wf asl_C1) by (constructor; vm_compute; split; congruence).
  split; [exact Hwf|].
  destruct (shift_there_and_back asl_C1 Hwf) as (E1 & E2).
  split; [exact E1 | exact E2].
Defined.

(** ** Which operations touch what *)

(** The operations that never write memory. *)
Definition read_only : list (Cpu -> Cpu) :=
  [ADC; SBC; AND; ORA; EOR; BIT; INX; INY; DEX; DEY; LDA; LDX; LDY;
   CMP; CPX; CPY; BCC; BCS; BEQ; BNE; BMI; BPL; BVC; BVS;
   CLC; CLD; CLI; CLV; JMP; PLA; PLP; NOP; JAM].

(** The operations that leave the program counter where the resolver put
    it: all but the branches, JMP and JSR. *)
Definition sequential : list (Cpu -> Cpu) :=
  [ADC; SBC; AND; ORA; EOR; BIT; ASL; LSR; INC; DEC; INX; INY; DEX; DEY;
   LDA; LDX; LDY; CMP; CPX; CPY; CLC; CLD; CLI; CLV;
   PHA; PHP; PLA; PLP; NOP; JAM].

(** The operations that leave the stack pointer alone: all but JSR and the
    pushes and pulls. *)
Definition stackless : list (Cpu -> Cpu) :=
  [ADC; SBC; AND; ORA; EOR; BIT; ASL; LSR; INC; DEC; INX; INY; DEX; DEY;
   LDA; LDX; LDY; CMP; CPX; CPY; BCC; BCS; BEQ; BNE; BMI; BPL; BVC; BVS;
   CLC; CLD; CLI; CLV; JMP; NOP; JAM].

Ltac each_in_list :=
  repeat match goal with
         | |- Forall _ (_ :: _) => apply Forall_cons
         | |- Forall _ [] => apply Forall_nil
         end.

Ltac open_ops :=
  unfold ADC, SBC, ADC_arg, AND, ORA, EOR, BIT, ASL, LSR, INC, DEC, INX, INY,
    DEX, DEY, LDA, LDX, LDY, CMP, CPX, CPY, CMP_arg, BCC, BCS, BEQ, BNE, BMI,
    BPL, BVC, BVS, BRA, CLC, CLD, CLI, CLV, JSR, JMP, PHA, PHP, PLA, PLP,
    JAM, NOP, write;
  rewrite ?if_same.

(** X22: only the read-modify-write operations on memory, the pushes and JSR
    write to the bus; only the branches, JMP and JSR move PC; only JSR, the
    pushes and the pulls move S.  Every other operation leaves the bus, PC
    or S exactly as it found it, in every state. *)
Theorem operation_footprints (c : Cpu) :
  Forall (fun f => bus (f c) = bus c) read_only /\
  Forall (fun f => pc (f c) = pc c) sequential /\
  Forall (fun f => s (f c) = s c) stackless.
Proof.
  unfold read_only, sequential, stackless.
  split; [|split]; each_in_list; open_ops;
    repeat match goal with
           | |- context [if ?b then _ else _] => destruct b
           end; reflexivity.
Qed.

(** ** More on ADC, SBC and LSR *)

(** X23: after ADC and after SBC, N is bit 7 of the new accumulator and Z tells
    whether the new accumulator is zero; X, Y, S, PC and the bus are as
    before. *)
Theorem ADC_SBC_result_flags (c : Cpu) (H : wf c) :
  forall f, In f [ADC; SBC] ->
    Status.isNegative (p (f c)) = Z.testbit (a (f c)) 7 /\
    Status.isZero (p (f c)) = (a (f c) =? 0) /\
    x (f c) = x c /\ y (f c) = y c /\ s (f c) = s c /\ pc (f c) = pc c /\
    bus (f c) = bus c.
Proof.
  assert (G : forall m, 0 <= m < 256 ->
    Status.isNegative (p (ADC_arg m c)) = Z.testbit (a (ADC_arg m c)) 7 /\
    Status.isZero (p (ADC_arg m c)) = (a (ADC_arg m c) =? 0) /\
    x (ADC_arg m c) = x c /\ y (ADC_arg m c) = y c /\ s (ADC_arg m c) = s c /\
    pc (ADC_arg m c) = pc c /\ bus (ADC_arg m c) = bus c).
  { intros m Hm. destruct (ADC_arg_effect m c H Hm) as (Ea & _ & EN & EZ & _).
    rewrite EN, EZ, Ea. split; [reflexivity|]. split; [reflexivity|].
    unfold ADC_arg. rewrite if_same. repeat split. }
  intros f [<- | [<- | []]].
  - unfold ADC. apply G. apply read_range. exact H.
  - unfold SBC. rewrite <- ADC_arg_u8. apply G. apply u8_range.
Qed.

Lemma ADC_SBC_result_flags_witness :
  wf acc_10_mem_25 /\
  a (SBC acc_10_mem_25) = 0xEA /\
  Status.isNegative (p (SBC acc_10_mem_25)) = true /\
  Status.isZero (p (SBC acc_10_mem_25)) = false.
Proof.
  assert (Hwf : wf acc_10_mem_25) by (constructor; vm_compute; split; congruence).
  split; [exact Hwf|].
  destruct (ADC_SBC_result_flags acc_10_mem_25 Hwf SBC (or_intror (or_introl eq_refl)))
    as (EN & EZ & _).
  rewrite EN, EZ. repeat split.
Defined.

(** X24: with the carry set (no borrow), SBC leaves [A - M] modulo 256 and the
    same C and Z as CMP of the same operands: C when [A >= M], Z when
    [A = M]. *)
Theorem SBC_agrees_with_CMP (c : Cpu) (H : wf c)
    (Hc : Status.isCarry (p c) = true) :
  a (SBC c) = (a c - read c) mod 256 /\
  Status.isCarry (p (SBC c)) = Status.isCarry (p (CMP c)) /\
  Status.isZero (p (SBC c)) = Status.isZero (p (CMP c)) /\
  Status.isCarry (p (SBC c)) = (read c <=? a c) /\
  Status.isZero (p (SBC c)) = (a c =? read c).
Proof.
  pose proof (read_range c H) as Hr. pose proof (wf_a c H) as Ha.
  destruct (CMP_arg_effect (a c) c Ha) as (HC & HZ & _).
  fold (CMP c) in HC, HZ. rewrite HC, HZ.
  unfold SBC. rewrite <- ADC_arg_u8.
  assert (E : u8 (Z.lnot (read c)) = 255 - read c) by (unfold Z.lnot; modlia).
  rewrite E.
  assert (Hm : 0 <= 255 - read c < 256) by lia.
  destruct (ADC_arg_effect (255 - read c) c H Hm) as (Ea & EC & _ & EZ & _).
  rewrite (getCarry_of _ _ Hc) in Ea, EC, EZ.
  rewrite Ea, EC, EZ, testbit8_small by lia.
  assert (E1 : (a c + (255 - read c) + 1) mod 256 = (a c - read c) mod 256).
  { replace (a c + (255 - read c) + 1) with (a c - read c + 1 * 256) by lia.
    apply Z.mod_add. lia. }
  assert (E2 : (255 <? a c + (255 - read c) + 1) = (read c <=? a c)).
  { destruct (read c <=? a c) eqn:L;
      [apply Z.leb_le in L; apply Z.ltb_lt | apply Z.leb_gt in L; apply Z.ltb_ge];
      lia. }
  assert (E3 : ((a c - read c) mod 256 =? 0) = (a c =? read c)).
  { destruct (a c =? read c) eqn:L.
    - apply Z.eqb_eq in L. rewrite L, Z.sub_diag. reflexivity.
    - apply Z.eqb_neq in L. apply Z.eqb_neq. Z.div_mod_to_equations. lia. }
  rewrite E1, E2, E3. repeat split.
Qed.

(** [A = 0x40], carry set, and the byte [0x41] at [op = 0x0040]. *)
Definition sbc_40_41 : Cpu :=
  with_p 0x01 (with_op 0x0040 (with_a 0x40 (fresh [(0x0040, 0x41)]))).

Lemma SBC_agrees_with_CMP_witness :
  wf sbc_40_41 /\ Status.isCarry (p sbc_40_41) = true /\
  a (SBC sbc_40_41) = 0xFF /\ Status.isCarry (p (SBC sbc_40_41)) = false.
Proof.
  assert (Hwf : wf sbc_40_41) by (constructor; vm_compute; split; congruence).
  split; [exact Hwf|]. split; [reflexivity|].
  destruct (SBC_agrees_with_CMP sbc_40_41 Hwf eq_refl) as (Ea & _ & _ & EC & _).
  rewrite Ea, EC. split; reflexivity.
Defined.

(** X25: LSR halves the byte it reads, accumulator or memory: the result is the
    byte divided by two, N is cleared and Z tells whether the result is
    zero. *)
Theorem LSR_halves (c : Cpu) (H : wf c) :
  read (LSR c) = read c / 2 /\
  Status.isNegative (p (LSR c)) = false /\
  Status.isZero (p (LSR c)) = (read c / 2 =? 0).
Proof.
  pose proof (read_range c H) as Hr.
  destruct (LSR_result c Hr) as (_ & EN & EZ).
  rewrite read_LSR, EN, EZ, Z.shiftr_div_pow2 by lia. change (2 ^ 1) with 2.
  repeat split. modlia.
Qed.

Lemma LSR_halves_witness :
  wf asl_C1 /\ a (LSR asl_C1) = 0x60 /\ Status.isZero (p (LSR asl_C1)) = false.
Proof.
  assert (Hwf : wf asl_C1) by (constructor; vm_compute; split; congruence).
  split; [exact Hwf|].
  destruct (LSR_halves asl_C1 Hwf) as (E1 & _ & E3).
  split; [exact E1 | rewrite E3; reflexivity].
Defined.

(** ** The length of an instruction *)









